(** * kubetest.manifest: loading Kubernetes manifests into API objects

    A shallow embedding of [src/kubetest/manifest.py] - [get_type],
    [new_object], [cast_value], [Renderer], [load_file] and [load_path] -
    and the properties of the type resolver, the object builder and the value
    caster that its specification states.

    Python values are an inductive type; an exception is the [Raise] branch of
    a result. What the module imports and does not define itself (the
    [builtins] namespace, the [kubernetes.client] namespaces, the constructors
    of the model classes, the YAML parser, the file system) is a variable of
    the section that uses it. *)

From Stdlib Require Import String Ascii List ZArith Bool Arith Lia.
Import ListNotations.

Local Open Scope string_scope.
Local Open Scope list_scope.

(** ** Exceptions and results *)

(** The exceptions the module raises or lets through. The message of an
    error raised by the interpreter itself is shortened to the attribute,
    key or operation it is about. *)
Inductive exn : Type :=
| ValueError (msg : string)
| TypeError (msg : string)
| AttributeError (attr : string)
| KeyError (key : string)
| IndexError
| RecursionError
| OSError (msg : string)
| OtherError (cls msg : string).

Inductive result (A : Type) : Type :=
| Ok (a : A)
| Raise (e : exn).

Arguments Ok {A} a.
Arguments Raise {A} e.

Definition bind {A B : Type} (m : result A) (f : A -> result B) : result B :=
  match m with
  | Ok a => f a
  | Raise e => Raise e
  end.

Declare Scope py_scope.
Delimit Scope py_scope with py.
Notation "x <- m ;; k" := (bind m (fun x => k))
  (at level 61, m at next level, right associativity) : py_scope.
Notation "' pat <- m ;; k" := (bind m (fun x => match x with pat => k end))
  (at level 61, pat pattern, m at next level, right associativity) : py_scope.
Local Open Scope py_scope.

Definition succeeds {A : Type} (m : result A) : Prop := exists a, m = Ok a.
Definition raises {A : Type} (m : result A) : Prop := exists e, m = Raise e.

(** ** Strings

    A [str] is a sequence of characters with code points below 256. *)

Definition dq : string := String (Ascii false true false false false true false false) EmptyString.
Definition newline : ascii := Ascii false true false true false false false false.

(** [c.lower()] for one character: A-Z and the upper-case letters of
    Latin-1 (all of 0xC0-0xDE but the multiplication sign 0xD7). *)
Definition lower_char (c : ascii) : ascii :=
  let n := nat_of_ascii c in
  if (((65 <=? n) && (n <=? 90)) || ((192 <=? n) && (n <=? 222) && negb (n =? 215)))%nat
  then ascii_of_nat (n + 32)
  else c.

(** [s.lower()] *)
Fixpoint lower (s : string) : string :=
  match s with
  | EmptyString => EmptyString
  | String c s' => String (lower_char c) (lower s')
  end.

(** [s.replace(old, new)] for a one-character [old]. *)
Fixpoint replace_char (old : ascii) (new : string) (s : string) : string :=
  match s with
  | EmptyString => EmptyString
  | String c s' =>
      if Ascii.eqb c old then (new ++ replace_char old new s')%string
      else String c (replace_char old new s')
  end.

(** [s.count(c)] for a one-character [c]. *)
Fixpoint count_char (c : ascii) (s : string) : nat :=
  match s with
  | EmptyString => 0
  | String c' s' => (if Ascii.eqb c' c then 1 else 0) + count_char c s'
  end.

(** [s.split(sep)] for a one-character [sep]: never an empty list. *)
Fixpoint split_char (sep : ascii) (s : string) : list string :=
  match s with
  | EmptyString => [EmptyString]
  | String c s' =>
      if Ascii.eqb c sep then EmptyString :: split_char sep s'
      else match split_char sep s' with
           | [] => [String c EmptyString]
           | w :: ws => String c w :: ws
           end
  end.

(** [l[i]] *)
Definition index {A : Type} (l : list A) (i : nat) : result A :=
  match nth_error l i with
  | Some x => Ok x
  | None => Raise IndexError
  end.

(** [s] without a prefix [p], when it starts with [p]. *)
Fixpoint strip_prefix (p s : string) : option string :=
  match p, s with
  | EmptyString, _ => Some s
  | String a p', String b s' => if Ascii.eqb a b then strip_prefix p' s' else None
  | String _ _, EmptyString => None
  end.

(** [s] without its last character, when that character is [c]. *)
Fixpoint strip_last (c : ascii) (s : string) : option string :=
  match s with
  | EmptyString => None
  | String a EmptyString => if Ascii.eqb a c then Some EmptyString else None
  | String a s' => option_map (String a) (strip_last c s')
  end.

Fixpoint has_char (c : ascii) (s : string) : bool :=
  match s with
  | EmptyString => false
  | String a s' => Ascii.eqb a c || has_char c s'
  end.

(** ** Dictionaries with string keys

    A [dict] keeps its keys in insertion order; assigning to a key that is
    there keeps its place. *)

Section StrDict.
Context {A : Type}.

Fixpoint str_get (d : list (string * A)) (k : string) : option A :=
  match d with
  | [] => None
  | (k', x) :: d' => if String.eqb k' k then Some x else str_get d' k
  end.

Fixpoint str_set (d : list (string * A)) (k : string) (x : A) : list (string * A) :=
  match d with
  | [] => [(k, x)]
  | (k', y) :: d' =>
      if String.eqb k' k then (k', x) :: d' else (k', y) :: str_set d' k x
  end.
End StrDict.

(** ** Values *)

(** What [yaml] hands over (None, booleans, integers, strings, lists and
    mappings) and, as [VObj], an instance of a model class with the
    attributes its constructor set. *)
#[warnings="-register-all"]
Inductive value : Type :=
| VNone
| VBool (b : bool)
| VInt (z : Z)
| VStr (s : string)
| VList (l : list value)
| VDict (d : list (value * value))
| VObj (cls : string) (attrs : list (string * value)).

Definition is_none (v : value) : bool :=
  match v with VNone => true | _ => false end.

(** Nesting depth of a value. *)
Fixpoint height (v : value) : nat :=
  match v with
  | VList l => S (fold_right (fun x acc => Nat.max (height x) acc) 0 l)
  | VDict d =>
      S (fold_right
           (fun kv acc => let '(k, x) := kv in Nat.max (Nat.max (height k) (height x)) acc)
           0 d)
  | VObj _ attrs =>
      S (fold_right (fun kv acc => let '(_, x) := kv in Nat.max (height x) acc) 0 attrs)
  | _ => 0
  end.

(** [hash(v)] is defined: lists, dicts and model instances (which define
    [__eq__] and no [__hash__]) are unhashable. *)
Definition hashable (v : value) : bool :=
  match v with
  | VNone | VBool _ | VInt _ | VStr _ => true
  | VList _ | VDict _ | VObj _ _ => false
  end.

(** [a == b] between hashable values: a boolean equals the integer 0 or 1. *)
Definition key_eqb (a b : value) : bool :=
  match a, b with
  | VNone, VNone => true
  | VBool x, VBool y => Bool.eqb x y
  | VInt x, VInt y => Z.eqb x y
  | VBool x, VInt y | VInt y, VBool x => Z.eqb y (if x then 1 else 0)%Z
  | VStr x, VStr y => String.eqb x y
  | _, _ => false
  end.

Fixpoint dict_lookup (d : list (value * value)) (k : value) : option value :=
  match d with
  | [] => None
  | (k', x) :: d' => if key_eqb k' k then Some x else dict_lookup d' k
  end.

(** [d[k] = x] *)
Fixpoint dict_insert (d : list (value * value)) (k x : value) : list (value * value) :=
  match d with
  | [] => [(k, x)]
  | (k', y) :: d' =>
      if key_eqb k' k then (k', x) :: d' else (k', y) :: dict_insert d' k x
  end.

Definition dict_setitem (d : list (value * value)) (k x : value) : result (list (value * value)) :=
  if hashable k then Ok (dict_insert d k x) else Raise (TypeError "unhashable type").

(** [v.get(key)]: only a dict has [get]; a missing key gives None. *)
Definition py_get (v key : value) : result value :=
  match v with
  | VDict d =>
      match dict_lookup d key with
      | Some x => Ok x
      | None => Ok VNone
      end
  | _ => Raise (AttributeError "get")
  end.

(** [v.items()] *)
Definition py_items (v : value) : result (list (value * value)) :=
  match v with
  | VDict d => Ok d
  | _ => Raise (AttributeError "items")
  end.

Fixpoint chars (s : string) : list value :=
  match s with
  | EmptyString => []
  | String c s' => VStr (String c EmptyString) :: chars s'
  end.

(** [for i in v]: the elements of a list, the characters of a string, the
    keys of a dict. *)
Definition py_iter (v : value) : result (list value) :=
  match v with
  | VList l => Ok l
  | VStr s => Ok (chars s)
  | VDict d => Ok (map fst d)
  | VNone | VBool _ | VInt _ | VObj _ _ => Raise (TypeError "object is not iterable")
  end.

(** ** Namespaces and classes *)

(** An object found in a module namespace, seen through what [new_object]
    asks of it: the three class attributes (None when [hasattr] is false)
    and what calling it with keyword arguments gives. *)
Record pytype : Type := {
  py_name : string;
  attribute_map : option (list (string * string));
  swagger_types : option (list (string * string));
  openapi_types : option (list (string * string));
  init : list (string * value) -> result value
}.

(** A module's [__dict__]; a name may be bound to None. *)
Definition namespace : Type := list (string * option pytype).

(** [ns.get(name)]: None for a missing name and for a name bound to None. *)
Definition ns_get (ns : namespace) (name : string) : option pytype :=
  match str_get ns name with
  | Some o => o
  | None => None
  end.

(** ** get_type *)

Section TypeResolver.
(** [kubernetes.client.models.__dict__] *)
Variable models : namespace.

(** [{k.lower(): k for k in models.__dict__.keys()}] *)
Definition lookup : list (string * string) :=
  fold_left (fun acc k => str_set acc (lower k) k) (map fst models) [].

(** [s.replace(...)] and the other [str] methods exist on strings only. *)
Definition as_str (attr : string) (v : value) : result string :=
  match v with
  | VStr s => Ok s
  | _ => Raise (AttributeError attr)
  end.

(** [prefix + kind] for a string [prefix]. *)
Definition str_add (prefix : string) (kind : value) : result string :=
  match kind with
  | VStr k => Ok (prefix ++ k)%string
  | _ => Raise (TypeError "can only concatenate str to str")
  end.

Definition possibilities (version kind : value) : result (list string) :=
  v <- as_str "replace" version ;;
  first <- str_add (replace_char "." "" (replace_char "/" "" v)) kind ;;
  if (count_char "/" v =? 1)%nat then
    suffix <- index (split_char "/" v) 1 ;;
    second <- str_add suffix kind ;;
    Ok [first; second]
  else Ok [first].

Fixpoint first_match (to_check : list string) : option pytype :=
  match to_check with
  | [] => None
  | c :: rest =>
      match str_get lookup (lower c) with
      | None => first_match rest
      | Some type_name => ns_get models type_name
      end
  end.

Definition get_type (manifest : value) : result (option pytype) :=
  version <- py_get manifest (VStr "apiVersion") ;;
  if is_none version
  then Raise (ValueError ("manifest has no " ++ dq ++ "version" ++ dq ++ " field specified")%string)
  else
    kind <- py_get manifest (VStr "kind") ;;
    if is_none kind
    then Raise (ValueError ("manifest has no " ++ dq ++ "kind" ++ dq ++ " field specified")%string)
    else
      to_check <- possibilities version kind ;;
      Ok (first_match to_check).
End TypeResolver.

(** ** Type signatures *)

(** What [$] lets through at the end of the string: one final newline. *)
Definition chop_eol (s : string) : string :=
  match strip_last newline s with
  | Some s' => s'
  | None => s
  end.

(** [re.match] of [t] against the pattern for a list type, [list[] then a
    group of any characters then []] and the end: group 1 of the match. The
    dot of the group matches no newline. *)
Definition list_match (t : string) : option string :=
  match strip_prefix "list[" t with
  | None => None
  | Some rest =>
      match strip_last "]" (chop_eol rest) with
      | Some element_type =>
          if has_char newline element_type then None else Some element_type
      | None => None
      end
  end.

(** [s] cut at its last comma followed by a space. *)
Fixpoint split_last_comma (s : string) : option (string * string) :=
  match s with
  | EmptyString => None
  | String c s' =>
      match split_last_comma s' with
      | Some (k, v) => Some (String c k, v)
      | None => option_map (fun v => (EmptyString, v)) (strip_prefix ", " s)
      end
  end.

(** [re.match] of [t] against the pattern for a dict type, [dict(] then
    two groups of any characters with a comma and a space between them then
    a closing parenthesis and the end: groups 1 and 2. The first group is
    greedy, so the cut is at the last comma followed by a space. *)
Definition dict_match (t : string) : option (string * string) :=
  match strip_prefix "dict(" t with
  | None => None
  | Some rest =>
      match strip_last ")" (chop_eol rest) with
      | Some inner => if has_char newline inner then None else split_last_comma inner
      | None => None
      end
  end.

(** ** Comprehensions and loops *)

(** [[f(i) for i in l]] *)
Fixpoint map_result {A B : Type} (f : A -> result B) (l : list A) : result (list B) :=
  match l with
  | [] => Ok []
  | x :: l' => y <- f x ;; ys <- map_result f l' ;; Ok (y :: ys)
  end.

(** [{fk(k): fv(v) for k, v in items}], the key before the value. *)
Fixpoint dict_comp (fk fv : value -> result value) (items acc : list (value * value))
  : result (list (value * value)) :=
  match items with
  | [] => Ok acc
  | (k, v) :: rest =>
      ck <- fk k ;;
      cv <- fv v ;;
      acc' <- dict_setitem acc ck cv ;;
      dict_comp fk fv rest acc'
  end.

(** A [for] loop whose body updates a state and may raise. *)
Fixpoint for_each {S A : Type} (body : S -> A -> result S) (l : list A) (s : S) : result S :=
  match l with
  | [] => Ok s
  | a :: l' => s' <- body s a ;; for_each body l' s'
  end.

(** ** new_object and cast_value *)

(** An entry of [builtins.__dict__]: the class [object], or anything else,
    seen through what calling it on a value gives. *)
Inductive builtin : Type :=
| B_object
| B_callable (call : value -> result value).

Definition getitem (d : list (string * string)) (k : string) : result string :=
  match str_get d k with
  | Some x => Ok x
  | None => Raise (KeyError k)
  end.

Definition kwargs : Type := list (string * value).

Section Builder.
(** The names of [builtins.__dict__] other than [object] that are not
    bound to None ([str], [int], [bool], [float], ...). *)
Variable builtin_callables : string -> option (value -> result value).
(** [kubernetes.client.__dict__] *)
Variable client : namespace.

(** [builtins.__dict__.get(t)] *)
Definition builtins_get (t : string) : option builtin :=
  if String.eqb t "object" then Some B_object
  else option_map B_callable (builtin_callables t).

(** The body of [cast_value], over the [new_object] it calls. *)
Definition cast_value_body (new_object : pytype -> value -> result value)
    (x : value) (t : string) : result value :=
  match builtins_get t with
  | Some B_object => Ok x
  | Some (B_callable builtin_type) => builtin_type x
  | None =>
      match ns_get client t with
      | Some k_type => new_object k_type x
      | None => Raise (ValueError ("Unable to determine cast type behavior: " ++ t)%string)
      end
  end.

(** [root_type.swagger_types[k]] if the class has [swagger_types],
    [root_type.openapi_types[k]] otherwise. *)
Definition field_type (root_type : pytype) (k : string) : result string :=
  match swagger_types root_type with
  | Some types => getitem types k
  | None =>
      match openapi_types root_type with
      | Some types => getitem types k
      | None => Raise (AttributeError "openapi_types")
      end
  end.

Section Body.
(** [cast_value], as the body of [new_object] calls it. *)
Variable cast : value -> string -> result value.

(** The value of one field: what the loop body computes from
    [cfg_value] and its type [t] and assigns to [constructor_args[k]]. *)
Definition field_value (cfg_value : value) (t : string) : result value :=
  match list_match t with
  | Some element_type =>
      items <- py_iter cfg_value ;;
      list_value <- map_result (fun i => cast i element_type) items ;;
      Ok (VList list_value)
  | None =>
      match dict_match t with
      | Some (key_type, val_type) =>
          items <- py_items cfg_value ;;
          dict_value <- dict_comp (fun k => cast k key_type) (fun v => cast v val_type)
                          items [] ;;
          Ok (VDict dict_value)
      | None => cast cfg_value t
      end
  end.

(** One turn of the loop over [root_type.attribute_map.items()]. *)
Definition set_field (root_type : pytype) (config : value)
    (constructor_args : kwargs) (kv : string * string) : result kwargs :=
  let '(k, v) := kv in
  cfg_value <- py_get config (VStr v) ;;
  if is_none cfg_value then Ok constructor_args
  else
    t <- field_type root_type k ;;
    x <- field_value cfg_value t ;;
    Ok (str_set constructor_args k x).

Definition attribute_items (root_type : pytype) : result (list (string * string)) :=
  match attribute_map root_type with
  | Some m => Ok m
  | None => Raise (AttributeError "attribute_map")
  end.

(** [constructor_args] when the loop is over. *)
Definition constructor_args_of (root_type : pytype) (config : value) : result kwargs :=
  items <- attribute_items root_type ;;
  for_each (set_field root_type config) items [].

Definition new_object_body (root_type : pytype) (config : value) : result value :=
  constructor_args <- constructor_args_of root_type config ;;
  init root_type constructor_args.
End Body.

(** [new_object] with room for [fuel] nested calls of itself on the
    interpreter's stack. *)
Fixpoint new_object_fuel (fuel : nat) (root_type : pytype) (config : value) : result value :=
  match fuel with
  | 0 => Raise RecursionError
  | S fuel' => new_object_body (cast_value_body (new_object_fuel fuel')) root_type config
  end.

Definition cast_value_fuel (fuel : nat) : value -> string -> result value :=
  cast_value_body (new_object_fuel fuel).

(** Each nested call is on a proper part of [config], so a stack of its
    nesting depth and one is as good as an unbounded one
    ([new_object_fuel_enough] below). *)
Definition new_object (root_type : pytype) (config : value) : result value :=
  new_object_fuel (S (height config)) root_type config.

Definition cast_value (x : value) (t : string) : result value :=
  cast_value_fuel (S (height x)) x t.

(** [constructor_args] as the top-level call computes it. *)
Definition constructor_args (root_type : pytype) (config : value) : result kwargs :=
  constructor_args_of cast_value root_type config.
End Builder.

(** ** The store, Renderer, load_file and load_path

    [load_path] shares a list object with the renderer's context, so lists
    live in a store and a context holds a reference. A run also records
    every call of the render callable with the context it was given, read
    at the time of the call. *)

(** What a context dictionary binds a name to. *)
Inductive ctx_entry : Type :=
| CtxValue (v : value)
| CtxList (address : nat).

Record render_call : Type := {
  call_template : string;
  call_context : list (string * value)
}.

Record world : Type := {
  cells : list (list value);
  calls : list render_call
}.

Definition io (A : Type) : Type := world -> result A * world.

Definition io_ret {A : Type} (a : A) : io A := fun w => (Ok a, w).
Definition io_raise {A : Type} (e : exn) : io A := fun w => (Raise e, w).
Definition io_lift {A : Type} (m : result A) : io A := fun w => (m, w).

Definition io_bind {A B : Type} (m : io A) (f : A -> io B) : io B :=
  fun w =>
    match m w with
    | (Ok a, w') => f a w'
    | (Raise e, w') => (Raise e, w')
    end.

Notation "x <<- m ;; k" := (io_bind m (fun x => k))
  (at level 61, m at next level, right associativity) : py_scope.

(** A new list object with the elements [l]. *)
Definition alloc (l : list value) : io nat :=
  fun w => (Ok (length (cells w)), {| cells := cells w ++ [l]; calls := calls w |}).

Definition deref (address : nat) : io (list value) :=
  fun w => (Ok (nth address (cells w) []), w).

Fixpoint io_for_each {S A : Type} (body : S -> A -> io S) (l : list A) (s : S) : io S :=
  match l with
  | [] => io_ret s
  | a :: l' => s' <<- body s a ;; io_for_each body l' s'
  end.

(** [{**a, **b}] *)
Definition dict_merge {A : Type} (a b : list (string * A)) : list (string * A) :=
  fold_left (fun acc kv => str_set acc (fst kv) (snd kv)) b a.

Definition read_entry (store : list (list value)) (e : ctx_entry) : value :=
  match e with
  | CtxValue v => v
  | CtxList address => VList (nth address store [])
  end.

(** A context as its reader sees it: each list reference followed. *)
Definition read_context (store : list (list value)) (context : list (string * ctx_entry))
  : list (string * value) :=
  map (fun kv => (fst kv, read_entry store (snd kv))) context.

Record Renderer : Type := {
  render_callable : string -> list (string * value) -> result string;
  context : list (string * ctx_entry)
}.

(** [Renderer.__call__(self, template, **context)] *)
Definition render (self : Renderer) (template : string) (context' : list (string * ctx_entry))
  : io string :=
  fun w =>
    let merged_context := read_context (cells w) (dict_merge (context self) context') in
    (render_callable self template merged_context,
     {| cells := cells w;
        calls := calls w ++ [{| call_template := template; call_context := merged_context |}] |}).

(** [renderer.context[k] = e] *)
Definition set_context (k : string) (e : ctx_entry) (renderer : Renderer) : Renderer :=
  {| render_callable := render_callable renderer;
     context := str_set (context renderer) k e |}.

(** [os.path.splitext(p)[1]] for a name without a directory separator: from
    the last dot on, the leading dots of the name not counted. *)
Fixpoint from_last_dot (p : string) : option string :=
  match p with
  | EmptyString => None
  | String c p' =>
      match from_last_dot p' with
      | Some e => Some e
      | None => if Ascii.eqb c "." then Some p else None
      end
  end.

Fixpoint skip_dots (p : string) : string :=
  match p with
  | String c p' => if Ascii.eqb c "." then skip_dots p' else p
  | EmptyString => EmptyString
  end.

Definition splitext_ext (p : string) : string :=
  match from_last_dot (skip_dots p) with
  | Some e => e
  | None => EmptyString
  end.

Definition ends_with (c : ascii) (s : string) : bool :=
  match strip_last c s with
  | Some _ => true
  | None => false
  end.

(** [os.path.join(a, b)] *)
Definition path_join (a b : string) : string :=
  match strip_prefix "/" b with
  | Some _ => b
  | None =>
      match a with
      | EmptyString => b
      | _ => if ends_with "/" a then (a ++ b)%string else (a ++ "/" ++ b)%string
      end
  end.

Definition is_manifest_name (f : string) : bool :=
  let ext := lower (splitext_ext f) in
  String.eqb ext ".yaml" || String.eqb ext ".yml".

Section Loader.
Variable builtin_callables : string -> option (value -> result value).
(** [kubernetes.client.__dict__] and [kubernetes.client.models.__dict__] *)
Variable client : namespace.
Variable models : namespace.
(** [repr(v)], for the message of an error. *)
Variable repr : value -> string.
(** [yaml.load_all(content, Loader=yaml.SafeLoader)]: each document as the
    generator yields it, parsed or raising. *)
Variable yaml_load_all : string -> list (result value).
(** The file system: [os.path.isdir], [os.listdir], and the text
    [open(path, 'r')] reads. *)
Variable isdir : string -> bool.
Variable listdir : string -> list string.
Variable read_text : string -> result string.

(** The loop of [load_file] over the documents of one file. *)
Fixpoint load_manifests (manifests : list (result value)) (objs : list value)
  : result (list value) :=
  match manifests with
  | [] => Ok objs
  | next :: rest =>
      manifest <- next ;;
      obj_type <- get_type models manifest ;;
      match obj_type with
      | None =>
          Raise (ValueError
                   ("Unable to determine object type for manifest: " ++ repr manifest)%string)
      | Some obj_type =>
          obj <- new_object builtin_callables client obj_type manifest ;;
          load_manifests rest (objs ++ [obj])
      end
  end.

Definition load_file (path : string) (renderer : option Renderer) : io (list value) :=
  f <<- io_lift (read_text path) ;;
  content <<- match renderer with
              | Some renderer => render renderer f [("path", CtxValue (VStr path))]
              | None => io_ret f
              end ;;
  io_lift (load_manifests (yaml_load_all content) []).

Definition load_path (path : string) (renderer : option Renderer) : io (list value) :=
  if negb (isdir path)
  then io_raise (ValueError (path ++ " is not a directory")%string)
  else
    objs <<- alloc [] ;;
    let renderer := option_map (set_context "objs" (CtxList objs)) renderer in
    objs <<- io_for_each
               (fun objs f =>
                  if is_manifest_name f then
                    loaded <<- load_file (path_join path f) renderer ;;
                    old <<- deref objs ;;
                    alloc (old ++ loaded)
                  else io_ret objs)
               (listdir path) objs ;;
    deref objs.
End Loader.

(** What a call of the render callable was given as [context["objs"]]. *)
Definition objs_seen (c : render_call) : option value :=
  str_get (call_context c) "objs".

(** The calls a run adds to the record all saw [objs] as [l]. *)
Definition adds_calls_seeing (l : list value) (w w' : world) : Prop :=
  exists new,
    calls w' = calls w ++ new
    /\ Forall (fun c => objs_seen c = Some (VList l)) new.

(** ** Reading a constructed object *)

(** [getattr(o, name)] on a model instance: an attribute the constructor
    was not given is None. *)
Definition attr (o : value) (name : string) : value :=
  match o with
  | VObj _ attrs =>
      match str_get attrs name with
      | Some x => x
      | None => VNone
      end
  | _ => VNone
  end.


(** ** A small registry, for the examples *)

(** A generated model class that validates nothing: its instance keeps the
    keyword arguments. [fields] lists (attribute, manifest key, type). *)
Definition model (name : string) (fields : list (string * string * string)) : pytype :=
  {| py_name := name;
     attribute_map := Some (map (fun f => (fst (fst f), snd (fst f))) fields);
     swagger_types := None;
     openapi_types := Some (map (fun f => (fst (fst f), snd f)) fields);
     init := fun args => Ok (VObj name args) |}.

Definition V1ObjectMeta : pytype :=
  model "V1ObjectMeta"
    [("name", "name", "str");
     ("labels", "labels", "dict(str, str)");
     ("creation_timestamp", "creationTimestamp", "datetime")].

Definition V1Container : pytype :=
  model "V1Container" [("name", "name", "str"); ("image", "image", "str")].

Definition V1PodSpec : pytype :=
  model "V1PodSpec" [("containers", "containers", "list[V1Container]")].

Definition V1Pod : pytype :=
  model "V1Pod"
    [("api_version", "apiVersion", "str");
     ("kind", "kind", "str");
     ("metadata", "metadata", "V1ObjectMeta");
     ("spec", "spec", "V1PodSpec")].

Definition ExtensionsV1beta1Ingress : pytype :=
  model "ExtensionsV1beta1Ingress"
    [("api_version", "apiVersion", "str"); ("kind", "kind", "str");
     ("metadata", "metadata", "V1ObjectMeta")].

Definition V1beta1Ingress : pytype :=
  model "V1beta1Ingress"
    [("api_version", "apiVersion", "str"); ("kind", "kind", "str");
     ("metadata", "metadata", "V1ObjectMeta")].

Definition sample_models : namespace :=
  [("__doc__", None);
   ("V1ObjectMeta", Some V1ObjectMeta);
   ("V1Container", Some V1Container);
   ("V1PodSpec", Some V1PodSpec);
   ("V1Pod", Some V1Pod);
   ("ExtensionsV1beta1Ingress", Some ExtensionsV1beta1Ingress);
   ("V1beta1Ingress", Some V1beta1Ingress)].

(** [str] and [int] as the examples use them: on scalars. The examples call
    neither on a container or on a string that is not a plain numeral, and
    what this excerpt answers there is not Python's answer. *)
Definition sample_str (x : value) : result value :=
  match x with
  | VStr s => Ok (VStr s)
  | VNone => Ok (VStr "None")
  | VBool true => Ok (VStr "True")
  | VBool false => Ok (VStr "False")
  | _ => Raise (OtherError "NotImplementedError" "str")
  end.

Definition sample_int (x : value) : result value :=
  match x with
  | VInt z => Ok (VInt z)
  | VBool b => Ok (VInt (if b then 1 else 0))
  | VStr _ => Raise (ValueError "invalid literal for int()")
  | _ => Raise (TypeError "int() argument")
  end.

Definition sample_callables (t : string) : option (value -> result value) :=
  if String.eqb t "str" then Some sample_str
  else if String.eqb t "int" then Some sample_int
  else None.

Definition pod_manifest (name : string) : value :=
  VDict [(VStr "apiVersion", VStr "v1");
         (VStr "kind", VStr "Pod");
         (VStr "metadata", VDict [(VStr "name", VStr name)])].

Definition ingress_manifest : value :=
  VDict [(VStr "apiVersion", VStr "extensions/v1beta1");
         (VStr "kind", VStr "Ingress")].

Definition job_manifest : value :=
  VDict [(VStr "apiVersion", VStr "batch/v1"); (VStr "kind", VStr "Job")].

(** A pod whose metadata carries a creation timestamp, and one with a key
    no field of [V1Pod] is read from. *)
Definition stamped_pod_manifest : value :=
  VDict [(VStr "apiVersion", VStr "v1");
         (VStr "kind", VStr "Pod");
         (VStr "metadata",
          VDict [(VStr "name", VStr "x");
                 (VStr "creationTimestamp", VStr "2020-01-01T00:00:00Z")])].

Definition annotated_pod_manifest : value :=
  VDict [(VStr "apiVersion", VStr "v1");
         (VStr "kind", VStr "Pod");
         (VStr "status", VDict [(VStr "phase", VStr "Running")]);
         (VStr "metadata", VDict [(VStr "name", VStr "x")])].

Definition two_containers : value :=
  VList [VDict [(VStr "name", VStr "web"); (VStr "image", VStr "nginx")];
         VDict [(VStr "name", VStr "log"); (VStr "image", VStr "fluentd")]].

(** A directory of two manifests and a note, a parser that knows the two
    texts, and a renderer with the default render callable. *)
Definition sample_isdir (path : string) : bool := String.eqb path "manifests".

Definition sample_listdir (path : string) : list string :=
  if String.eqb path "manifests" then ["a.yaml"; "notes.txt"; "b.yml"] else [].

Definition pod_text (name : string) : string :=
  ("{apiVersion: v1, kind: Pod, metadata: {name: " ++ name ++ "}}")%string.

Definition sample_read_text (path : string) : result string :=
  if String.eqb path "manifests/a.yaml" then Ok (pod_text "a")
  else if String.eqb path "manifests/b.yml" then Ok (pod_text "b")
  else Raise (OSError "No such file or directory").

Definition sample_yaml_load_all (content : string) : list (result value) :=
  if String.eqb content (pod_text "a") then [Ok (pod_manifest "a")]
  else if String.eqb content (pod_text "b") then [Ok (pod_manifest "b")]
  else [Raise (OtherError "YAMLError" "not one of the two texts")].

Definition sample_repr (v : value) : string := "<manifest>".

(** [default_render]: the template as it is. *)
Definition default_render (template : string) (context : list (string * value))
  : result string :=
  Ok template.

Definition sample_renderer : Renderer :=
  {| render_callable := default_render; context := [] |}.

Definition empty_world : world := {| cells := []; calls := [] |}.

Definition built_pod (name : string) : value :=
  VObj "V1Pod"
    [("api_version", VStr "v1"); ("kind", VStr "Pod");
     ("metadata", VObj "V1ObjectMeta" [("name", VStr name)])].

(** ** Mappings that cannot be built

    [unbuildable root_type config]: somewhere in [config], at any depth
    that nested object fields, list elements and dict entries reach, a field
    that [config] gives a value has a type naming neither a builtin nor a
    name of [kubernetes.client]. *)

Section Unbuildable.
Variable builtin_callables : string -> option (value -> result value).
Variable client : namespace.

Inductive unbuildable : pytype -> value -> Prop :=
| unbuildable_field root_type config amap k v cfg_value t :
    attribute_map root_type = Some amap ->
    In (k, v) amap ->
    py_get config (VStr v) = Ok cfg_value ->
    is_none cfg_value = false ->
    field_type root_type k = Ok t ->
    uncastable_field cfg_value t ->
    unbuildable root_type config
with uncastable_field : value -> string -> Prop :=
| uncastable_element cfg_value t element_type items i :
    list_match t = Some element_type ->
    py_iter cfg_value = Ok items ->
    In i items ->
    uncastable i element_type ->
    uncastable_field cfg_value t
| uncastable_key cfg_value t key_type val_type items k v :
    list_match t = None ->
    dict_match t = Some (key_type, val_type) ->
    py_items cfg_value = Ok items ->
    In (k, v) items ->
    uncastable k key_type ->
    uncastable_field cfg_value t
| uncastable_val cfg_value t key_type val_type items k v :
    list_match t = None ->
    dict_match t = Some (key_type, val_type) ->
    py_items cfg_value = Ok items ->
    In (k, v) items ->
    uncastable v val_type ->
    uncastable_field cfg_value t
| uncastable_bare cfg_value t :
    list_match t = None ->
    dict_match t = None ->
    uncastable cfg_value t ->
    uncastable_field cfg_value t
with uncastable : value -> string -> Prop :=
| uncastable_unknown x t :
    builtins_get builtin_callables t = None ->
    ns_get client t = None ->
    uncastable x t
| uncastable_nested x t k_type :
    builtins_get builtin_callables t = None ->
    ns_get client t = Some k_type ->
    unbuildable k_type x ->
    uncastable x t.
End Unbuildable.


(** * Properties *)

Ltac inv H := inversion H; subst; clear H.

(** Unfold the constant at the head of a term, for a constant that a
    section abbreviates with its first arguments given. *)
Ltac head_of t := lazymatch t with ?f _ => head_of f | _ => t end.
Tactic Notation "unfold_head" constr(t) := let h := head_of t in unfold h.

(** ** Strings and string-keyed dictionaries *)

Lemma str_get_set {A : Type} (d : list (string * A)) (k k' : string) (x : A) :
  str_get (str_set d k x) k' = if String.eqb k k' then Some x else str_get d k'.
Proof.
  induction d as [|[k0 y] d IH]; simpl.
  - reflexivity.
  - destruct (String.eqb_spec k0 k) as [->|Hne]; simpl.
    + destruct (String.eqb_spec k k'); reflexivity.
    + rewrite IH.
      destruct (String.eqb_spec k0 k') as [->|]; [|reflexivity].
      destruct (String.eqb_spec k k'); [congruence|reflexivity].
Qed.

Lemma str_get_set_same {A : Type} (d : list (string * A)) (k : string) (x : A) :
  str_get (str_set d k x) k = Some x.
Proof. rewrite str_get_set, String.eqb_refl; reflexivity. Qed.

Lemma str_get_set_other {A : Type} (d : list (string * A)) (k k' : string) (x : A) :
  k <> k' -> str_get (str_set d k x) k' = str_get d k'.
Proof.
  intros Hne. rewrite str_get_set.
  destruct (String.eqb_spec k k'); [contradiction|reflexivity].
Qed.

Lemma count_char_app (c : ascii) (a b : string) :
  count_char c (a ++ b) = count_char c a + count_char c b.
Proof.
  induction a as [|x a IH]; simpl; [reflexivity|].
  rewrite IH. lia.
Qed.

Lemma count_char_absent (c : ascii) (s : string) :
  has_char c s = false -> count_char c s = 0.
Proof.
  induction s as [|x s IH]; simpl; [reflexivity|].
  destruct (Ascii.eqb x c); simpl; [discriminate|exact IH].
Qed.

Lemma split_char_length (c : ascii) (s : string) :
  length (split_char c s) = S (count_char c s).
Proof.
  induction s as [|x s IH]; simpl; [reflexivity|].
  destruct (Ascii.eqb x c); simpl.
  - now rewrite IH.
  - destruct (split_char c s); simpl in *; [discriminate|exact IH].
Qed.

Lemma split_char_absent (c : ascii) (s : string) :
  has_char c s = false -> split_char c s = [s].
Proof.
  induction s as [|x s IH]; simpl; [reflexivity|].
  destruct (Ascii.eqb x c); simpl; [discriminate|].
  intros H. now rewrite (IH H).
Qed.

(** Splitting at the only separator: the part before it and the part after. *)
Lemma split_char_once (c : ascii) (a b : string) :
  has_char c a = false -> has_char c b = false ->
  split_char c (a ++ String c b) = [a; b].
Proof.
  intros Ha Hb. induction a as [|x a IH]; simpl in *.
  - rewrite Ascii.eqb_refl. now rewrite split_char_absent.
  - destruct (Ascii.eqb x c); simpl in *; [discriminate|].
    now rewrite (IH Ha).
Qed.

Lemma replace_char_absent (c : ascii) (s : string) :
  has_char c s = false -> replace_char c "" s = s.
Proof.
  induction s as [|x s IH]; simpl; [reflexivity|].
  destruct (Ascii.eqb x c); simpl; [discriminate|].
  intros H. now rewrite (IH H).
Qed.

Lemma replace_char_once (c : ascii) (a b : string) :
  has_char c a = false -> has_char c b = false ->
  replace_char c "" (a ++ String c b) = (a ++ b)%string.
Proof.
  intros Ha Hb. induction a as [|x a IH]; simpl in *.
  - rewrite Ascii.eqb_refl. simpl. now apply replace_char_absent.
  - destruct (Ascii.eqb x c); simpl in *; [discriminate|].
    now rewrite (IH Ha).
Qed.

(** ** The lower-cased lookup of [get_type] *)

Section LookupFacts.
Variable models : namespace.

Lemma lookup_fold_sound (ks : list string) (acc : list (string * string)) (key n : string) :
  str_get (fold_left (fun acc k => str_set acc (lower k) k) ks acc) key = Some n ->
  (In n ks /\ lower n = key) \/ str_get acc key = Some n.
Proof.
  revert acc. induction ks as [|k ks IH]; simpl; intros acc H.
  - now right.
  - destruct (IH _ H) as [[Hin Hl]|Hacc].
    + left. split; [now right|exact Hl].
    + rewrite str_get_set in Hacc.
      destruct (String.eqb_spec (lower k) key) as [Heq|].
      * inv Hacc. left. split; [now left|reflexivity].
      * now right.
Qed.

Lemma lookup_fold_complete (ks : list string) (acc : list (string * string)) (key : string) :
  (exists n, In n ks /\ lower n = key) \/ (exists n, str_get acc key = Some n) ->
  exists n, str_get (fold_left (fun acc k => str_set acc (lower k) k) ks acc) key = Some n.
Proof.
  revert acc. induction ks as [|k ks IH]; simpl; intros acc H.
  - destruct H as [[n [[] _]]|H]; exact H.
  - apply IH. destruct H as [[n [[->|Hin] Hl]]|[n Hacc]].
    + right. exists n. subst key. apply str_get_set_same.
    + left. now exists n.
    + right. rewrite str_get_set.
      destruct (String.eqb (lower k) key); eauto.
Qed.

(** A name the lookup answers is a name of the registry with that lower
    case. *)
Lemma lookup_sound (key n : string) :
  str_get (lookup models) key = Some n -> In n (map fst models) /\ lower n = key.
Proof.
  intros H. destruct (lookup_fold_sound _ _ _ _ H) as [H'|H']; [exact H'|discriminate].
Qed.

(** Every name of the registry is found under its lower case. *)
Lemma lookup_complete (n : string) :
  In n (map fst models) -> exists n', str_get (lookup models) (lower n) = Some n'.
Proof.
  intros H. apply lookup_fold_complete. left. now exists n.
Qed.
End LookupFacts.

Lemma possibilities_total (version kind : string) :
  exists cs, possibilities (VStr version) (VStr kind) = Ok cs.
Proof.
  unfold possibilities; simpl.
  destruct (Nat.eqb_spec (count_char "/" version) 1) as [H1|]; [|eauto].
  pose proof (split_char_length "/" version) as Hlen.
  unfold index.
  destruct (split_char "/" version) as [|a [|b l]]; simpl in *; try lia.
  eauto.
Qed.

(** The two candidate names of a version with one separator. *)
Lemma possibilities_one_separator (group ver kind : string) :
  has_char "/" group = false -> has_char "/" ver = false ->
  possibilities (VStr (group ++ String "/" ver)) (VStr kind)
  = Ok [(replace_char "." "" (group ++ ver) ++ kind)%string; (ver ++ kind)%string].
Proof.
  intros Hg Hv. unfold possibilities; simpl.
  rewrite replace_char_once by assumption.
  assert (Hcount : count_char "/" (group ++ String "/" ver) = 1).
  { rewrite count_char_app; simpl. now rewrite !count_char_absent by assumption. }
  rewrite Hcount; simpl.
  rewrite split_char_once by assumption. reflexivity.
Qed.

(** ** get_type *)

(** C1. A version with exactly one separator, both candidate names matching
    names of the registry up to case: [get_type] returns what the registry
    binds to the match of the version-prefixed candidate (the version with
    its separators removed, then the kind), whatever the suffix-only
    candidate matches. *)
Theorem get_type_prefers_prefixed
    (models : namespace) (manifest : value) (group ver kind n1 n2 : string) :
  py_get manifest (VStr "apiVersion") = Ok (VStr (group ++ String "/" ver)) ->
  py_get manifest (VStr "kind") = Ok (VStr kind) ->
  has_char "/" group = false ->
  has_char "/" ver = false ->
  In n1 (map fst models) ->
  lower n1 = lower (replace_char "." "" (group ++ ver) ++ kind) ->
  In n2 (map fst models) ->
  lower n2 = lower (ver ++ kind) ->
  exists n,
    In n (map fst models)
    /\ lower n = lower (replace_char "." "" (group ++ ver) ++ kind)
    /\ get_type models manifest = Ok (ns_get models n).
Proof.
  intros Hv Hk Hg Hs Hin1 Hl1 _ _.
  destruct (lookup_complete models n1 Hin1) as [n Hn].
  rewrite Hl1 in Hn.
  destruct (lookup_sound models _ _ Hn) as [Hin Hl].
  exists n. split; [exact Hin|]. split; [exact Hl|].
  unfold get_type. rewrite Hv; simpl. rewrite Hk; simpl.
  rewrite possibilities_one_separator by assumption. simpl.
  now rewrite Hn.
Qed.

Lemma get_type_prefers_prefixed_witness :
  exists n,
    In n (map fst sample_models)
    /\ lower n = lower (replace_char "." "" ("extensions" ++ "v1beta1") ++ "Ingress")
    /\ get_type sample_models ingress_manifest = Ok (ns_get sample_models n).
Proof.
  apply (get_type_prefers_prefixed sample_models ingress_manifest
           "extensions" "v1beta1" "Ingress" "ExtensionsV1beta1Ingress" "V1beta1Ingress").
  - reflexivity.
  - reflexivity.
  - reflexivity.
  - reflexivity.
  - simpl. tauto.
  - reflexivity.
  - simpl. tauto.
  - reflexivity.
Defined.

(** C3. A manifest whose [apiVersion] or [kind] is missing (or None):
    [get_type] raises a ValueError, the same whatever the registry holds, and
    so without consulting it; this is not the None of an unknown type. *)
Theorem get_type_missing_field (manifest : value) :
  py_get manifest (VStr "apiVersion") = Ok VNone
  \/ py_get manifest (VStr "kind") = Ok VNone ->
  exists msg,
    forall models : namespace,
      get_type models manifest = Raise (ValueError msg)
      /\ get_type models manifest <> Ok None.
Proof.
  intros H. unfold get_type.
  destruct (py_get manifest (VStr "apiVersion")) as [version|e] eqn:Hv.
  - destruct (is_none version) eqn:Hn; simpl; rewrite Hn.
    + eexists. intros models. split; [reflexivity|discriminate].
    + destruct H as [H|H]; [inv H; discriminate|].
      rewrite H; simpl.
      eexists. intros models. split; [reflexivity|discriminate].
  - destruct H as [H|H]; [discriminate|].
    destruct manifest as [| | | | |d|]; simpl in *; try discriminate.
    destruct (dict_lookup d (VStr "apiVersion")); discriminate.
Qed.

Lemma get_type_missing_field_witness :
  exists msg,
    forall models : namespace,
      get_type models (VDict [(VStr "kind", VStr "Pod")]) = Raise (ValueError msg)
      /\ get_type models (VDict [(VStr "kind", VStr "Pod")]) <> Ok None.
Proof.
  apply (get_type_missing_field (VDict [(VStr "kind", VStr "Pod")])).
  left. reflexivity.
Defined.

(** C4. A manifest with a string [apiVersion] and a string [kind] none of
    whose candidate names is a name of the registry up to case: [get_type]
    returns None and raises nothing. *)
Theorem get_type_not_found (models : namespace) (manifest : value) (version kind : string) :
  py_get manifest (VStr "apiVersion") = Ok (VStr version) ->
  py_get manifest (VStr "kind") = Ok (VStr kind) ->
  (forall cs c n,
      possibilities (VStr version) (VStr kind) = Ok cs ->
      In c cs -> In n (map fst models) -> lower n <> lower c) ->
  get_type models manifest = Ok None.
Proof.
  intros Hv Hk Hno. unfold get_type. rewrite Hv; simpl. rewrite Hk; simpl.
  destruct (possibilities_total version kind) as [cs Hcs].
  rewrite Hcs; simpl. f_equal.
  assert (Hall : forall c, In c cs -> str_get (lookup models) (lower c) = None).
  { intros c Hc. destruct (str_get (lookup models) (lower c)) as [n|] eqn:Hn; [|reflexivity].
    destruct (lookup_sound models _ _ Hn) as [Hin Hl].
    exfalso. exact (Hno cs c n Hcs Hc Hin Hl). }
  clear Hcs Hno. induction cs as [|c cs IH]; simpl; [reflexivity|].
  rewrite (Hall c) by now left.
  apply IH. intros c' Hc'. apply Hall. now right.
Qed.

Lemma get_type_not_found_witness :
  get_type sample_models job_manifest = Ok None.
Proof.
  apply (get_type_not_found sample_models job_manifest "batch/v1" "Job").
  - reflexivity.
  - reflexivity.
  - intros cs c n Hcs Hc Hn.
    vm_compute in Hcs. injection Hcs as <-.
    simpl in Hc, Hn.
    destruct Hc as [<-|[<-|[]]];
      repeat (destruct Hn as [<-|Hn]; [vm_compute; discriminate|]); destruct Hn.
Defined.

(** ** The nesting depth of the parts of a value *)

Lemma height_list_in (l : list value) (x : value) :
  In x l -> height x < height (VList l).
Proof.
  simpl. induction l as [|y l IH]; simpl; intros [].
  - subst. lia.
  - specialize (IH H). lia.
Qed.

Lemma height_dict_in (d : list (value * value)) (k x : value) :
  In (k, x) d -> height k < height (VDict d) /\ height x < height (VDict d).
Proof.
  simpl. induction d as [|[k' y] d IH]; simpl; intros [].
  - inv H. lia.
  - specialize (IH H). lia.
Qed.

Lemma dict_lookup_in (d : list (value * value)) (key x : value) :
  dict_lookup d key = Some x -> exists k, In (k, x) d.
Proof.
  induction d as [|[k' y] d IH]; simpl; [discriminate|].
  destruct (key_eqb k' key).
  - intros H. inv H. exists k'. now left.
  - intros H. destruct (IH H) as [k Hk]. exists k. now right.
Qed.

Lemma height_chars (s : string) (x : value) : In x (chars s) -> height x = 0.
Proof.
  induction s as [|c s IH]; simpl; intros [].
  - now subst.
  - now apply IH.
Qed.

Lemma py_iter_height (v : value) (items : list value) (x : value) :
  py_iter v = Ok items -> In x items -> height x <= height v.
Proof.
  destruct v as [| | |s|l|d|]; simpl; try discriminate; intros H Hin; inv H.
  - rewrite (height_chars _ _ Hin). lia.
  - pose proof (height_list_in _ _ Hin) as Hlt. simpl in Hlt. lia.
  - apply in_map_iff in Hin. destruct Hin as [[k y] [Hk Hin]]. simpl in Hk. subst.
    destruct (height_dict_in _ _ _ Hin) as [Hlt _]. simpl in Hlt. lia.
Qed.

Lemma py_items_height (v : value) (items : list (value * value)) (k x : value) :
  py_items v = Ok items -> In (k, x) items ->
  height k <= height v /\ height x <= height v.
Proof.
  destruct v as [| | | | |d|]; simpl; try discriminate; intros H Hin; inv H.
  destruct (height_dict_in _ _ _ Hin) as [Hk Hx]. simpl in Hk, Hx. lia.
Qed.

(** What [config.get(key)] returns, when it is not None, lies deeper. *)
Lemma py_get_height (config key x : value) :
  py_get config key = Ok x -> is_none x = false -> height x < height config.
Proof.
  destruct config as [| | | | |d|]; simpl; try discriminate.
  destruct (dict_lookup d key) as [y|] eqn:Hl; intros H Hn; inv H; [|discriminate].
  destruct (dict_lookup_in _ _ _ Hl) as [k Hin].
  now destruct (height_dict_in _ _ _ Hin).
Qed.

(** ** Loops that agree on what they visit *)

Lemma map_result_ext {A B : Type} (f g : A -> result B) (l : list A) :
  (forall x, In x l -> f x = g x) -> map_result f l = map_result g l.
Proof.
  induction l as [|x l IH]; simpl; intros H; [reflexivity|].
  rewrite (H x) by now left.
  rewrite IH; [reflexivity|]. intros y Hy. apply H. now right.
Qed.

Lemma dict_comp_ext (fk fv gk gv : value -> result value) (items acc : list (value * value)) :
  (forall k v, In (k, v) items -> fk k = gk k /\ fv v = gv v) ->
  dict_comp fk fv items acc = dict_comp gk gv items acc.
Proof.
  revert acc. induction items as [|[k v] items IH]; simpl; intros acc H; [reflexivity|].
  destruct (H k v) as [-> ->]; [now left|].
  destruct (gk k) as [ck|]; simpl; [|reflexivity].
  destruct (gv v) as [cv|]; simpl; [|reflexivity].
  destruct (dict_setitem acc ck cv); simpl; [|reflexivity].
  apply IH. intros k' v' Hin. apply H. now right.
Qed.

Lemma for_each_ext {S A : Type} (body1 body2 : S -> A -> result S) (l : list A) (s : S) :
  (forall s' a, In a l -> body1 s' a = body2 s' a) ->
  for_each body1 l s = for_each body2 l s.
Proof.
  revert s. induction l as [|a l IH]; simpl; intros s H; [reflexivity|].
  rewrite (H s a) by now left.
  destruct (body2 s a); simpl; [|reflexivity].
  apply IH. intros s' b Hb. apply H. now right.
Qed.

(** ** new_object does not depend on the room left on the stack *)

Section BuilderFacts.
Variable builtin_callables : string -> option (value -> result value).
Variable client : namespace.

Abbreviation cast_value_body := (cast_value_body builtin_callables client).
Abbreviation new_object_fuel := (new_object_fuel builtin_callables client).
Abbreviation new_object := (new_object builtin_callables client).
Abbreviation cast_value := (cast_value builtin_callables client).
Abbreviation constructor_args := (constructor_args builtin_callables client).

Lemma field_value_ext (cast1 cast2 : value -> string -> result value)
    (cfg_value : value) (t : string) :
  (forall x t', height x <= height cfg_value -> cast1 x t' = cast2 x t') ->
  field_value cast1 cfg_value t = field_value cast2 cfg_value t.
Proof.
  intros H. unfold field_value.
  destruct (list_match t) as [element_type|].
  - destruct (py_iter cfg_value) as [items|] eqn:Hit; simpl; [|reflexivity].
    rewrite (map_result_ext (fun i => cast1 i element_type) (fun i => cast2 i element_type));
      [reflexivity|].
    intros x Hx. apply H. eapply py_iter_height; eassumption.
  - destruct (dict_match t) as [[key_type val_type]|].
    + destruct (py_items cfg_value) as [items|] eqn:Hit; simpl; [|reflexivity].
      rewrite (dict_comp_ext (fun k => cast1 k key_type) (fun v => cast1 v val_type)
                 (fun k => cast2 k key_type) (fun v => cast2 v val_type));
        [reflexivity|].
      intros k v Hin. destruct (py_items_height _ _ _ _ Hit Hin). split; now apply H.
    + apply H. lia.
Qed.

Lemma set_field_ext (cast1 cast2 : value -> string -> result value)
    (root_type : pytype) (config : value) (args : kwargs) (kv : string * string) :
  (forall x t, height x < height config -> cast1 x t = cast2 x t) ->
  set_field cast1 root_type config args kv = set_field cast2 root_type config args kv.
Proof.
  intros H. destruct kv as [k v]. unfold set_field.
  destruct (py_get config (VStr v)) as [cfg_value|] eqn:Hget; simpl; [|reflexivity].
  destruct (is_none cfg_value) eqn:Hn; [reflexivity|].
  destruct (field_type root_type k) as [t|]; simpl; [|reflexivity].
  rewrite (field_value_ext cast1 cast2); [reflexivity|].
  intros x t' Hx. apply H.
  pose proof (py_get_height _ _ _ Hget Hn). lia.
Qed.

Lemma new_object_body_ext (cast1 cast2 : value -> string -> result value)
    (root_type : pytype) (config : value) :
  (forall x t, height x < height config -> cast1 x t = cast2 x t) ->
  new_object_body cast1 root_type config = new_object_body cast2 root_type config.
Proof.
  intros H. unfold new_object_body, constructor_args_of.
  destruct (attribute_items root_type) as [items|]; simpl; [|reflexivity].
  rewrite (for_each_ext (set_field cast1 root_type config) (set_field cast2 root_type config));
    [reflexivity|].
  intros s a _. now apply set_field_ext.
Qed.

Lemma new_object_fuel_agree (n m : nat) (root_type : pytype) (config : value) :
  height config < n -> height config < m ->
  new_object_fuel n root_type config = new_object_fuel m root_type config.
Proof.
  revert m root_type config.
  induction n as [|n IH]; intros m root_type config Hn Hm; [lia|].
  destruct m as [|m]; [lia|]. simpl.
  apply new_object_body_ext. intros x t Hx.
  unfold_head cast_value_body.
  destruct (builtins_get builtin_callables t) as [[|call]|]; try reflexivity.
  destruct (ns_get client t) as [k_type|]; [|reflexivity].
  apply IH; lia.
Qed.

(** A stack deeper than the mapping is nested is never exhausted. *)
Lemma new_object_fuel_enough (n : nat) (root_type : pytype) (config : value) :
  height config < n -> new_object_fuel n root_type config = new_object root_type config.
Proof.
  intros Hn. apply new_object_fuel_agree; [exact Hn|lia].
Qed.

(** [cast_value] and [new_object] satisfy the equations of the source. *)
Lemma cast_value_unfold (x : value) (t : string) :
  cast_value x t = cast_value_body new_object x t.
Proof.
  unfold_head cast_value. unfold cast_value_fuel. unfold_head cast_value_body.
  destruct (builtins_get builtin_callables t) as [[|call]|]; try reflexivity.
Qed.

Lemma new_object_unfold (root_type : pytype) (config : value) :
  new_object root_type config = new_object_body cast_value root_type config.
Proof.
  unfold_head new_object. simpl.
  apply new_object_body_ext. intros x t Hx.
  unfold_head cast_value. unfold cast_value_fuel. unfold_head cast_value_body.
  destruct (builtins_get builtin_callables t) as [[|call]|]; try reflexivity.
  destruct (ns_get client t) as [k_type|]; [|reflexivity].
  apply new_object_fuel_agree; lia.
Qed.
End BuilderFacts.

(** ** Loops: results and failures *)

Lemma map_result_Forall2 {A B : Type} (f : A -> result B) (l : list A) (r : list B) :
  map_result f l = Ok r <-> Forall2 (fun x y => f x = Ok y) l r.
Proof.
  revert r. induction l as [|x l IH]; simpl; intros r.
  - split; intros H; [inv H; constructor|inv H; reflexivity].
  - split; intros H.
    + destruct (f x) as [y|] eqn:Hx; simpl in H; [|discriminate].
      destruct (map_result f l) as [ys|]; simpl in H; [|discriminate].
      inv H. constructor; [exact Hx|]. now apply IH.
    + inv H. rewrite H2; simpl.
      apply IH in H4. rewrite H4. reflexivity.
Qed.

Lemma map_result_raises {A B : Type} (f : A -> result B) (l : list A) (x : A) :
  In x l -> raises (f x) -> raises (map_result f l).
Proof.
  intros Hin [e He]. induction l as [|y l IH]; simpl; [destruct Hin|].
  destruct Hin as [->|Hin].
  - rewrite He. now exists e.
  - destruct (f y); simpl; [|eexists; reflexivity].
    destruct (IH Hin) as [e' ->]. now exists e'.
Qed.

Lemma dict_comp_raises (fk fv : value -> result value) (items acc : list (value * value))
    (k v : value) :
  In (k, v) items -> raises (fk k) \/ raises (fv v) ->
  raises (dict_comp fk fv items acc).
Proof.
  intros Hin Hr. revert acc.
  induction items as [|[k' v'] items IH]; simpl; intros acc; [destruct Hin|].
  destruct Hin as [Heq|Hin].
  - inv Heq. destruct Hr as [[e He]|[e He]].
    + rewrite He. now exists e.
    + destruct (fk k); simpl; [|eexists; reflexivity].
      rewrite He. now exists e.
  - destruct (fk k'); simpl; [|eexists; reflexivity].
    destruct (fv v'); simpl; [|eexists; reflexivity].
    destruct (dict_setitem acc a a0); simpl; [|eexists; reflexivity].
    now apply IH.
Qed.

Lemma for_each_raises {S A : Type} (body : S -> A -> result S) (l : list A) (a : A) (s : S) :
  In a l -> (forall s', raises (body s' a)) -> raises (for_each body l s).
Proof.
  intros Hin Hr. revert s.
  induction l as [|b l IH]; simpl; intros s; [destruct Hin|].
  destruct Hin as [->|Hin].
  - destruct (Hr s) as [e ->]. now exists e.
  - destruct (body s b); simpl; [|eexists; reflexivity].
    now apply IH.
Qed.

Lemma for_each_app {S A : Type} (body : S -> A -> result S) (l l' : list A) (s : S) :
  for_each body (l ++ l') s = (s' <- for_each body l s ;; for_each body l' s').
Proof.
  revert s. induction l as [|a l IH]; simpl; intros s; [reflexivity|].
  destruct (body s a); simpl; [apply IH|reflexivity].
Qed.



Lemma Forall2_nth_error {A B : Type} (R : A -> B -> Prop) (l : list A) (r : list B) :
  Forall2 R l r ->
  length r = length l
  /\ forall i x, nth_error l i = Some x -> exists y, nth_error r i = Some y /\ R x y.
Proof.
  induction 1 as [|x y l r Hxy _ [IHlen IHnth]]; simpl.
  - split; [reflexivity|]. intros [|i] x Hx; discriminate.
  - split; [now rewrite IHlen|].
    intros [|i] x' Hx; simpl in *.
    + inv Hx. now exists y.
    + now apply IHnth.
Qed.


(** ** new_object and cast_value *)

Section BuilderProperties.
Variable builtin_callables : string -> option (value -> result value).
Variable client : namespace.

Abbreviation builtins_get := (builtins_get builtin_callables).
Abbreviation cast_value_body := (cast_value_body builtin_callables client).
Abbreviation cast_value_fuel := (cast_value_fuel builtin_callables client).
Abbreviation new_object_fuel := (new_object_fuel builtin_callables client).
Abbreviation new_object := (new_object builtin_callables client).
Abbreviation cast_value := (cast_value builtin_callables client).
Abbreviation constructor_args := (constructor_args builtin_callables client).
Abbreviation unbuildable := (unbuildable builtin_callables client).
Abbreviation uncastable := (uncastable builtin_callables client).
Abbreviation uncastable_field := (uncastable_field builtin_callables client).

(** C8. [cast_value(v, "object")] is [v], for every value and with any
    room on the stack: no conversion, no failure. *)
Theorem cast_value_object (x : value) :
  cast_value x "object" = Ok x
  /\ forall fuel, cast_value_fuel fuel x "object" = Ok x.
Proof.
  split; [|intros fuel]; reflexivity.
Qed.

(** A bare type name that is neither a builtin nor a name of
    [kubernetes.client]: the cast error, whatever the value. *)
Lemma cast_value_unknown (x : value) (t : string) :
  builtins_get t = None -> ns_get client t = None ->
  cast_value x t
  = Raise (ValueError ("Unable to determine cast type behavior: " ++ t)%string).
Proof.
  intros Hb Hc. rewrite cast_value_unfold.
  unfold_head cast_value_body. now rewrite Hb, Hc.
Qed.

Lemma cast_value_nested (x : value) (t : string) (k_type : pytype) :
  builtins_get t = None -> ns_get client t = Some k_type ->
  cast_value x t = new_object k_type x.
Proof.
  intros Hb Hc. rewrite cast_value_unfold.
  unfold_head cast_value_body. now rewrite Hb, Hc.
Qed.


(** C7. A field of type list-of-T whose value iterates as [items]: when
    every element casts, the field's value is a list; and whenever it is
    built it is a list as long as [items] whose i-th element is the cast
    of the i-th element of [items] to T. *)
Theorem list_field_cast_in_order
    (cfg_value : value) (t element_type : string) (items : list value) :
  list_match t = Some element_type ->
  py_iter cfg_value = Ok items ->
  (Forall (fun i => succeeds (cast_value i element_type)) items ->
   succeeds (field_value cast_value cfg_value t))
  /\ (forall r,
        field_value cast_value cfg_value t = Ok r ->
        exists list_value,
          r = VList list_value
          /\ length list_value = length items
          /\ forall i x,
              nth_error items i = Some x ->
              exists y, nth_error list_value i = Some y
                        /\ cast_value x element_type = Ok y).
Proof.
  intros Hm Hit. unfold field_value. rewrite Hm, Hit. simpl. split.
  - intros Hall.
    assert (Hs : succeeds (map_result (fun i => cast_value i element_type) items)).
    { clear Hit. induction Hall as [|x l [y Hy] _ [ys IH]]; simpl.
      - now exists [].
      - rewrite Hy, IH. simpl. now exists (y :: ys). }
    destruct Hs as [ys ->]. simpl. now exists (VList ys).
  - intros r H.
    destruct (map_result (fun i => cast_value i element_type) items) as [ys|] eqn:Hys;
      simpl in H; [|discriminate].
    inv H. exists ys. split; [reflexivity|].
    apply map_result_Forall2 in Hys.
    exact (Forall2_nth_error _ _ _ Hys).
Qed.



(** C10. Two mappings that give every key of the descriptor's
    [attribute_map] the same value build the same object or raise the same
    error: what a mapping holds under other keys is never read. *)
Theorem new_object_ignores_unmapped_keys (root_type : pytype) (config config' : value) :
  (forall amap k v,
      attribute_map root_type = Some amap -> In (k, v) amap ->
      py_get config (VStr v) = py_get config' (VStr v)) ->
  new_object root_type config = new_object root_type config'.
Proof.
  intros H. rewrite !new_object_unfold.
  unfold new_object_body, constructor_args_of, attribute_items.
  destruct (attribute_map root_type) as [amap|] eqn:Hmap; simpl; [|reflexivity].
  rewrite (for_each_ext (set_field cast_value root_type config)
             (set_field cast_value root_type config')); [reflexivity|].
  intros s [k v] Hin. unfold set_field.
  now rewrite (H amap k v eq_refl Hin).
Qed.

(** C2, as the code has it. A field that the mapping gives a value and
    whose type names neither a builtin nor a name of [kubernetes.client]
    makes [new_object] raise, at whatever depth of nested objects, list
    elements and dict entries the field lies: no object is returned. *)
Theorem new_object_unbuildable_raises (root_type : pytype) (config : value) :
  unbuildable root_type config -> raises (new_object root_type config).
Proof.
  remember (S (height config)) as n eqn:Hn.
  assert (Hlt : height config < n) by lia. clear Hn.
  revert root_type config Hlt.
  induction n as [|n IH]; intros root_type config Hlt Hu; [lia|].
  inversion Hu as [? ? amap k v cfg_value t Hmap Hin Hget Hnone Hty Hf]; subst.
  pose proof (py_get_height _ _ _ Hget Hnone) as Hcfg.
  assert (Hcast : forall x t',
             height x <= height cfg_value ->
             uncastable x t' -> raises (cast_value x t')).
  { intros x t' Hx Hux.
    inversion Hux as [? ? Hb Hc|? ? k_type Hb Hc Hk]; subst.
    - rewrite cast_value_unknown by assumption. eexists; reflexivity.
    - rewrite (cast_value_nested _ _ _ Hb Hc). apply IH; [lia|exact Hk]. }
  assert (Hfv : raises (field_value cast_value cfg_value t)).
  { unfold field_value.
    inversion Hf as [? ? element_type items i Hm Hit Hini Hux
                    |? ? key_type val_type items k' v' Hl Hm Hit Hini Hux
                    |? ? key_type val_type items k' v' Hl Hm Hit Hini Hux
                    |? ? Hl Hm Hux]; subst.
    - rewrite Hm, Hit. simpl.
      pose proof (py_iter_height _ _ _ Hit Hini) as Hh.
      destruct (map_result_raises (fun i => cast_value i element_type) items i Hini
                  (Hcast _ _ Hh Hux)) as [e ->].
      now exists e.
    - rewrite Hl, Hm, Hit. simpl.
      destruct (py_items_height _ _ _ _ Hit Hini) as [Hh _].
      destruct (dict_comp_raises (fun k => cast_value k key_type)
                  (fun v => cast_value v val_type) items [] k' v' Hini
                  (or_introl (Hcast _ _ Hh Hux))) as [e ->].
      now exists e.
    - rewrite Hl, Hm, Hit. simpl.
      destruct (py_items_height _ _ _ _ Hit Hini) as [_ Hh].
      destruct (dict_comp_raises (fun k => cast_value k key_type)
                  (fun v => cast_value v val_type) items [] k' v' Hini
                  (or_intror (Hcast _ _ Hh Hux))) as [e ->].
      now exists e.
    - rewrite Hl, Hm. apply Hcast; [lia|exact Hux]. }
  rewrite new_object_unfold.
  unfold new_object_body, constructor_args_of, attribute_items. rewrite Hmap. simpl.
  destruct (for_each_raises (set_field cast_value root_type config) amap (k, v) [] Hin)
    as [e ->]; [|now exists e].
  intros s'. unfold set_field. rewrite Hget. simpl. rewrite Hnone, Hty. simpl.
  destruct Hfv as [e ->]. now exists e.
Qed.

(** The error is the cast error of that field when the fields before it
    in [attribute_map] are built: a bare type name that nothing binds is
    never passed through. *)
Lemma new_object_first_unknown_type
    (root_type : pytype) (config cfg_value : value)
    (before after : list (string * string)) (args : kwargs) (k v t : string) :
  attribute_map root_type = Some (before ++ (k, v) :: after) ->
  for_each (set_field cast_value root_type config) before [] = Ok args ->
  py_get config (VStr v) = Ok cfg_value ->
  is_none cfg_value = false ->
  field_type root_type k = Ok t ->
  list_match t = None ->
  dict_match t = None ->
  builtins_get t = None ->
  ns_get client t = None ->
  new_object root_type config
  = Raise (ValueError ("Unable to determine cast type behavior: " ++ t)%string).
Proof.
  intros Hmap Hbefore Hget Hnone Hty Hl Hd Hb Hc.
  rewrite new_object_unfold.
  unfold new_object_body, constructor_args_of, attribute_items. rewrite Hmap. simpl.
  rewrite for_each_app, Hbefore. simpl.
  rewrite Hget. simpl. rewrite Hnone, Hty. simpl.
  unfold field_value. rewrite Hl, Hd.
  now rewrite cast_value_unknown by assumption.
Qed.

End BuilderProperties.

(** ** The examples of the specification, run *)

Example resolve_and_build_pod :
  get_type sample_models (pod_manifest "x") = Ok (Some V1Pod)
  /\ new_object sample_callables sample_models V1Pod (pod_manifest "x") = Ok (built_pod "x").
Proof. split; reflexivity. Qed.

Example containers_are_built :
  field_value (cast_value sample_callables sample_models) two_containers "list[V1Container]"
  = Ok (VList [VObj "V1Container" [("name", VStr "web"); ("image", VStr "nginx")];
               VObj "V1Container" [("name", VStr "log"); ("image", VStr "fluentd")]]).
Proof. reflexivity. Qed.

Example labels_are_cast :
  field_value (cast_value sample_callables sample_models)
    (VDict [(VStr "app", VStr "web"); (VStr "tier", VStr "front")]) "dict(str, str)"
  = Ok (VDict [(VStr "app", VStr "web"); (VStr "tier", VStr "front")]).
Proof. reflexivity. Qed.

Example manifest_names :
  map is_manifest_name ["a.yaml"; "b.YML"; "notes.txt"; ".yaml"; "c.yaml.bak"]
  = [true; true; false; false; false].
Proof. reflexivity. Qed.

(** ** Witnesses *)

Lemma list_field_cast_in_order_witness :
  (Forall (fun i => succeeds (cast_value sample_callables sample_models i "V1Container"))
     [VDict [(VStr "name", VStr "web")]; VDict [(VStr "name", VStr "log")]] ->
   succeeds (field_value (cast_value sample_callables sample_models)
               (VList [VDict [(VStr "name", VStr "web")]; VDict [(VStr "name", VStr "log")]])
               "list[V1Container]"))
  /\ (forall r,
        field_value (cast_value sample_callables sample_models)
          (VList [VDict [(VStr "name", VStr "web")]; VDict [(VStr "name", VStr "log")]])
          "list[V1Container]" = Ok r ->
        exists list_value,
          r = VList list_value
          /\ length list_value
             = length [VDict [(VStr "name", VStr "web")]; VDict [(VStr "name", VStr "log")]]
          /\ forall i x,
              nth_error [VDict [(VStr "name", VStr "web")]; VDict [(VStr "name", VStr "log")]] i
              = Some x ->
              exists y, nth_error list_value i = Some y
                        /\ cast_value sample_callables sample_models x "V1Container" = Ok y).
Proof.
  apply (list_field_cast_in_order sample_callables sample_models
           (VList [VDict [(VStr "name", VStr "web")]; VDict [(VStr "name", VStr "log")]])
           "list[V1Container]" "V1Container").
  - reflexivity.
  - reflexivity.
Defined.


Lemma new_object_ignores_unmapped_keys_witness :
  new_object sample_callables sample_models V1Pod (pod_manifest "x")
  = new_object sample_callables sample_models V1Pod annotated_pod_manifest.
Proof.
  apply (new_object_ignores_unmapped_keys sample_callables sample_models V1Pod
           (pod_manifest "x") annotated_pod_manifest).
  intros amap k v Hmap Hin.
  injection Hmap as <-.
  simpl in Hin.
  destruct Hin as [H|[H|[H|[H|[]]]]]; injection H as <- <-; reflexivity.
Defined.

(** The pod with a creation timestamp cannot be built: [V1ObjectMeta]
    types that field [datetime], which no namespace has. *)
Lemma stamped_pod_unbuildable :
  unbuildable sample_callables sample_models V1Pod stamped_pod_manifest.
Proof.
  eapply (unbuildable_field _ _ V1Pod stamped_pod_manifest _ "metadata" "metadata");
    [reflexivity|simpl; tauto|reflexivity|reflexivity|reflexivity|].
  apply uncastable_bare; [reflexivity|reflexivity|].
  eapply uncastable_nested; [reflexivity|reflexivity|].
  eapply (unbuildable_field _ _ V1ObjectMeta _ _ "creation_timestamp" "creationTimestamp");
    [reflexivity|simpl; tauto|reflexivity|reflexivity|reflexivity|].
  apply uncastable_bare; [reflexivity|reflexivity|].
  apply uncastable_unknown; reflexivity.
Defined.

Lemma new_object_unbuildable_raises_witness :
  raises (new_object sample_callables sample_models V1Pod stamped_pod_manifest).
Proof.
  apply (new_object_unbuildable_raises sample_callables sample_models V1Pod
           stamped_pod_manifest).
  exact stamped_pod_unbuildable.
Defined.

Example stamped_pod_error :
  new_object sample_callables sample_models V1Pod stamped_pod_manifest
  = Raise (ValueError "Unable to determine cast type behavior: datetime").
Proof. reflexivity. Qed.

(** C2 as stated fails where the mapping gives the field no value: the
    [creation_timestamp] of [V1ObjectMeta] has a type of none of the three
    shapes, and a mapping without [creationTimestamp] is built all the same. *)
Lemma unrecognized_type_of_absent_field_builds :
  field_type V1ObjectMeta "creation_timestamp" = Ok "datetime"
  /\ list_match "datetime" = None
  /\ dict_match "datetime" = None
  /\ builtins_get sample_callables "datetime" = None
  /\ ns_get sample_models "datetime" = None
  /\ new_object sample_callables sample_models V1ObjectMeta (VDict [(VStr "name", VStr "x")])
     = Ok (VObj "V1ObjectMeta" [("name", VStr "x")]).
Proof. repeat split; reflexivity. Qed.


(** ** load_path and the renderer's context *)

Lemma read_context_get (store : list (list value)) (ctx : list (string * ctx_entry))
    (k : string) :
  str_get (read_context store ctx) k = option_map (read_entry store) (str_get ctx k).
Proof.
  induction ctx as [|[k' e] ctx IH]; simpl; [reflexivity|].
  destruct (String.eqb k' k); [reflexivity|exact IH].
Qed.

Lemma nth_app_old {A : Type} (l l' : list A) (i : nat) (d : A) :
  i < length l -> nth i (l ++ l') d = nth i l d.
Proof.
  intros H. now apply app_nth1.
Qed.

Lemma io_bind_inv {A B : Type} (m : io A) (f : A -> io B) (w w' : world) (r : result B) :
  io_bind m f w = (r, w') ->
  (exists a w1, m w = (Ok a, w1) /\ f a w1 = (r, w'))
  \/ (exists e, m w = (Raise e, w') /\ r = Raise e).
Proof.
  unfold io_bind. destruct (m w) as [[a|e] w1]; intros H.
  - left. now exists a, w1.
  - right. inv H. now exists e.
Qed.

Section LoaderFacts.
Variable builtin_callables : string -> option (value -> result value).
Variable client : namespace.
Variable models : namespace.
Variable repr : value -> string.
Variable yaml_load_all : string -> list (result value).
Variable isdir : string -> bool.
Variable listdir : string -> list string.
Variable read_text : string -> result string.

Abbreviation load_file :=
  (load_file builtin_callables client models repr yaml_load_all read_text).
Abbreviation load_path :=
  (load_path builtin_callables client models repr yaml_load_all isdir listdir read_text).

Lemma adds_calls_refl (l : list value) (w : world) : adds_calls_seeing l w w.
Proof. exists []. split; [now rewrite app_nil_r|constructor]. Qed.

Lemma adds_calls_trans (l : list value) (w1 w2 w3 : world) :
  adds_calls_seeing l w1 w2 -> adds_calls_seeing l w2 w3 -> adds_calls_seeing l w1 w3.
Proof.
  intros [n1 [H1 F1]] [n2 [H2 F2]]. exists (n1 ++ n2). split.
  - now rewrite H2, H1, app_assoc.
  - apply Forall_app. now split.
Qed.

(** [load_file] with a renderer whose context holds the list at [a]
    under [objs]: the store stays, and the call it adds saw that list as
    it was then. *)
Lemma load_file_calls (path : string) (r0 : Renderer) (a : nat) (w w' : world)
    (res : result (list value)) :
  load_file path (Some (set_context "objs" (CtxList a) r0)) w = (res, w') ->
  cells w' = cells w /\ adds_calls_seeing (nth a (cells w) []) w w'.
Proof.
  unfold_head load_file. unfold io_bind, io_lift.
  destruct (read_text path) as [f|e]; simpl.
  - match goal with
    | |- context [render_callable r0 ?f ?c] => destruct (render_callable r0 f c) eqn:Hr
    end; simpl; intros H; inv H; simpl.
    + split; [reflexivity|]. eexists. split; [reflexivity|].
      constructor; [|constructor].
      unfold objs_seen; simpl. rewrite read_context_get.
      rewrite str_get_set_other by discriminate.
      now rewrite str_get_set_same.
    + split; [reflexivity|]. eexists. split; [reflexivity|].
      constructor; [|constructor].
      unfold objs_seen; simpl. rewrite read_context_get.
      rewrite str_get_set_other by discriminate.
      now rewrite str_get_set_same.
  - intros H. inv H. split; [reflexivity|apply adds_calls_refl].
Qed.

(** One turn of the loop of [load_path]: the list at [a] is not written,
    the new list is a new object. *)
Lemma load_path_turn_calls (path : string) (r0 : Renderer) (a objs : nat) (f : string)
    (w w' : world) (res : result nat) :
  a < length (cells w) ->
  nth a (cells w) [] = [] ->
  (if is_manifest_name f then
     loaded <<- load_file (path_join path f)
                  (Some (set_context "objs" (CtxList a) r0)) ;;
     old <<- deref objs ;;
     alloc (old ++ loaded)
   else io_ret objs) w = (res, w') ->
  a < length (cells w') /\ nth a (cells w') [] = [] /\ adds_calls_seeing [] w w'.
Proof.
  intros Hlen Hnth H.
  destruct (is_manifest_name f).
  - apply io_bind_inv in H.
    destruct H as [[loaded [w1 [Hlf H]]]|[e [Hlf _]]].
    + destruct (load_file_calls _ _ _ _ _ _ Hlf) as [Hcells Hcalls].
      rewrite Hnth in Hcalls.
      unfold io_bind, deref, alloc in H. simpl in H. inv H. simpl.
      rewrite Hcells, length_app, nth_app_old by exact Hlen.
      split; [lia|]. split; [exact Hnth|].
      destruct Hcalls as [new [Hc Hf]]. exists new. now split.
    + destruct (load_file_calls _ _ _ _ _ _ Hlf) as [Hcells Hcalls].
      rewrite Hnth in Hcalls. rewrite Hcells. auto.
  - inv H. split; [exact Hlen|]. split; [exact Hnth|apply adds_calls_refl].
Qed.

Lemma load_path_loop_calls (path : string) (r0 : Renderer) (a : nat) (fs : list string) :
  forall (objs : nat) (w w' : world) (res : result nat),
    a < length (cells w) ->
    nth a (cells w) [] = [] ->
    io_for_each
      (fun objs f =>
         if is_manifest_name f then
           loaded <<- load_file (path_join path f)
                        (Some (set_context "objs" (CtxList a) r0)) ;;
           old <<- deref objs ;;
           alloc (old ++ loaded)
         else io_ret objs)
      fs objs w = (res, w') ->
    adds_calls_seeing [] w w'.
Proof.
  induction fs as [|f fs IH]; simpl; intros objs w w' res Hlen Hnth H.
  - inv H. apply adds_calls_refl.
  - apply io_bind_inv in H.
    destruct H as [[objs1 [w1 [Hturn H]]]|[e [Hturn _]]].
    + destruct (load_path_turn_calls _ _ _ _ _ _ _ _ Hlen Hnth Hturn) as [Hlen1 [Hnth1 Hc]].
      eapply adds_calls_trans; [exact Hc|].
      eapply IH; eassumption.
    + now destruct (load_path_turn_calls _ _ _ _ _ _ _ _ Hlen Hnth Hturn) as [_ [_ Hc]].
Qed.

(** Every call of the render callable that [load_path] makes is given the
    empty list as [context["objs"]], however many objects the files before
    it gave. *)
Lemma load_path_renders_without_objs (path : string) (r0 : Renderer) (w w' : world)
    (res : result (list value)) :
  load_path path (Some r0) w = (res, w') -> adds_calls_seeing [] w w'.
Proof.
  unfold_head load_path.
  destruct (isdir path); simpl.
  - intros H. apply io_bind_inv in H.
    destruct H as [[a [w1 [Ha H]]]|[e [Ha _]]]; [|discriminate].
    unfold alloc in Ha. inv Ha.
    assert (Hlen : length (cells w)
                   < length (cells {| cells := cells w ++ [[]]; calls := calls w |})).
    { simpl. rewrite length_app. simpl. lia. }
    assert (Hnth : nth (length (cells w))
                     (cells {| cells := cells w ++ [[]]; calls := calls w |}) [] = []).
    { simpl. rewrite app_nth2 by lia. now rewrite Nat.sub_diag. }
    apply io_bind_inv in H.
    destruct H as [[objs [w2 [Hloop H]]]|[e [Hloop _]]].
    + unfold deref in H. inv H.
      destruct (load_path_loop_calls _ _ _ _ _ _ _ _ Hlen Hnth Hloop) as [new [Hc Hf]].
      exists new. now split.
    + destruct (load_path_loop_calls _ _ _ _ _ _ _ _ Hlen Hnth Hloop) as [new [Hc Hf]].
      exists new. now split.
  - intros H. inv H. apply adds_calls_refl.
Qed.
End LoaderFacts.

(** C6, on the code. In the sample directory the second file is rendered
    with an empty [objs] although the first file gave a pod: [load_path]
    rebinds its local [objs] to a new list at each file and the context keeps
    the first, empty one. *)
Theorem load_path_second_render_sees_no_objs :
  fst (load_path sample_callables sample_models sample_models sample_repr
         sample_yaml_load_all sample_isdir sample_listdir sample_read_text
         "manifests" (Some sample_renderer) empty_world)
  = Ok [built_pod "a"; built_pod "b"]
  /\ map (fun c => (call_template c, objs_seen c))
       (calls (snd (load_path sample_callables sample_models sample_models sample_repr
                      sample_yaml_load_all sample_isdir sample_listdir sample_read_text
                      "manifests" (Some sample_renderer) empty_world)))
     = [(pod_text "a", Some (VList [])); (pod_text "b", Some (VList []))].
Proof. split; reflexivity. Qed.

(** * Further properties of the resolver *)

(** A character that [lower] neither produces from another nor changes:
    the separators of a version are such. *)
Definition caseless (c : ascii) : Prop :=
  forall x, Ascii.eqb (lower_char x) c = Ascii.eqb x c.

Lemma slash_caseless : caseless "/".
Proof. intros [[] [] [] [] [] [] [] []]; reflexivity. Qed.

Lemma dot_caseless : caseless ".".
Proof. intros [[] [] [] [] [] [] [] []]; reflexivity. Qed.

Lemma lower_app (a b : string) : lower (a ++ b) = (lower a ++ lower b)%string.
Proof.
  induction a as [|x a IH]; simpl; [reflexivity|]. now rewrite IH.
Qed.

Lemma lower_replace_char (c : ascii) (s : string) :
  caseless c -> lower (replace_char c "" s) = replace_char c "" (lower s).
Proof.
  intros Hc. induction s as [|x s IH]; simpl; [reflexivity|].
  rewrite Hc. destruct (Ascii.eqb x c); simpl; now rewrite IH.
Qed.

Lemma count_char_lower (c : ascii) (s : string) :
  caseless c -> count_char c (lower s) = count_char c s.
Proof.
  intros Hc. induction s as [|x s IH]; simpl; [reflexivity|].
  now rewrite Hc, IH.
Qed.

Lemma split_char_lower (c : ascii) (s : string) :
  caseless c -> split_char c (lower s) = map lower (split_char c s).
Proof.
  intros Hc. induction s as [|x s IH]; simpl; [reflexivity|].
  rewrite Hc, IH. destruct (Ascii.eqb x c); simpl; [reflexivity|].
  destruct (split_char c s); reflexivity.
Qed.

Lemma index_map {A B : Type} (f : A -> B) (l : list A) (i : nat) :
  index (map f l) i = (x <- index l i ;; Ok (f x)).
Proof.
  unfold index. rewrite nth_error_map. destruct (nth_error l i); reflexivity.
Qed.

(** The candidates of the lower-cased version and kind are the lower-cased
    candidates. *)
Lemma possibilities_lower (version kind : string) :
  possibilities (VStr (lower version)) (VStr (lower kind))
  = (cs <- possibilities (VStr version) (VStr kind) ;; Ok (map lower cs)).
Proof.
  unfold possibilities; simpl.
  rewrite count_char_lower by exact slash_caseless.
  rewrite split_char_lower by exact slash_caseless.
  rewrite index_map.
  rewrite <- (lower_replace_char "/") by exact slash_caseless.
  rewrite <- (lower_replace_char ".") by exact dot_caseless.
  destruct (count_char "/" version =? 1)%nat.
  - destruct (index (split_char "/" version) 1); simpl; [|reflexivity].
    now rewrite !lower_app.
  - simpl. now rewrite lower_app.
Qed.

Lemma first_match_lower (models : namespace) (cs1 cs2 : list string) :
  map lower cs1 = map lower cs2 -> first_match models cs1 = first_match models cs2.
Proof.
  revert cs2. induction cs1 as [|c1 cs1 IH]; intros [|c2 cs2] H; simpl in *;
    try discriminate; [reflexivity|].
  injection H as Hc Hcs. rewrite Hc.
  destruct (str_get (lookup models) (lower c2)); [reflexivity|now apply IH].
Qed.

Lemma get_type_strings (models : namespace) (manifest : value) (version kind : string) :
  py_get manifest (VStr "apiVersion") = Ok (VStr version) ->
  py_get manifest (VStr "kind") = Ok (VStr kind) ->
  get_type models manifest
  = (cs <- possibilities (VStr version) (VStr kind) ;; Ok (first_match models cs)).
Proof.
  intros Hv Hk. unfold get_type. rewrite Hv; simpl. now rewrite Hk.
Qed.

(** X1. A version with one separator whose version-prefixed candidate
    matches no name of the registry while the suffix-only candidate does:
    [get_type] returns what the registry binds to that second match. *)
Theorem get_type_falls_back_to_suffix
    (models : namespace) (manifest : value) (group ver kind n2 : string) :
  py_get manifest (VStr "apiVersion") = Ok (VStr (group ++ String "/" ver)) ->
  py_get manifest (VStr "kind") = Ok (VStr kind) ->
  has_char "/" group = false ->
  has_char "/" ver = false ->
  (forall n, In n (map fst models) ->
             lower n <> lower (replace_char "." "" (group ++ ver) ++ kind)) ->
  In n2 (map fst models) ->
  lower n2 = lower (ver ++ kind) ->
  exists n,
    In n (map fst models)
    /\ lower n = lower (ver ++ kind)
    /\ get_type models manifest = Ok (ns_get models n).
Proof.
  intros Hv Hk Hg Hs Hno Hin2 Hl2.
  destruct (lookup_complete models n2 Hin2) as [n Hn].
  rewrite Hl2 in Hn.
  destruct (lookup_sound models _ _ Hn) as [Hin Hl].
  exists n. split; [exact Hin|]. split; [exact Hl|].
  rewrite (get_type_strings _ _ _ _ Hv Hk).
  rewrite possibilities_one_separator by assumption. simpl.
  destruct (str_get (lookup models) (lower (replace_char "." "" (group ++ ver) ++ kind)))
    as [n1|] eqn:Hn1.
  - destruct (lookup_sound models _ _ Hn1) as [Hin1 Hl1].
    exfalso. exact (Hno n1 Hin1 Hl1).
  - now rewrite Hn.
Qed.

Definition networking_ingress_manifest : value :=
  VDict [(VStr "apiVersion", VStr "networking.k8s.io/v1beta1");
         (VStr "kind", VStr "Ingress")].

Lemma get_type_falls_back_to_suffix_witness :
  exists n,
    In n (map fst sample_models)
    /\ lower n = lower ("v1beta1" ++ "Ingress")
    /\ get_type sample_models networking_ingress_manifest = Ok (ns_get sample_models n).
Proof.
  apply (get_type_falls_back_to_suffix sample_models networking_ingress_manifest
           "networking.k8s.io" "v1beta1" "Ingress" "V1beta1Ingress").
  - reflexivity.
  - reflexivity.
  - reflexivity.
  - reflexivity.
  - intros n Hn. simpl in Hn.
    repeat (destruct Hn as [<-|Hn]; [vm_compute; discriminate|]). destruct Hn.
  - simpl. tauto.
  - reflexivity.
Defined.

(** X2. The case of the letters of [apiVersion] and [kind] does not count:
    two manifests whose versions and kinds are equal up to case resolve to
    the same result. *)
Theorem get_type_case_insensitive
    (models : namespace) (m1 m2 : value) (v1 v2 k1 k2 : string) :
  py_get m1 (VStr "apiVersion") = Ok (VStr v1) ->
  py_get m1 (VStr "kind") = Ok (VStr k1) ->
  py_get m2 (VStr "apiVersion") = Ok (VStr v2) ->
  py_get m2 (VStr "kind") = Ok (VStr k2) ->
  lower v1 = lower v2 ->
  lower k1 = lower k2 ->
  get_type models m1 = get_type models m2.
Proof.
  intros Hv1 Hk1 Hv2 Hk2 Hv Hk.
  rewrite (get_type_strings _ _ _ _ Hv1 Hk1), (get_type_strings _ _ _ _ Hv2 Hk2).
  pose proof (possibilities_lower v1 k1) as H1.
  pose proof (possibilities_lower v2 k2) as H2.
  rewrite Hv, Hk, H2 in H1.
  destruct (possibilities_total v1 k1) as [cs1 Hc1].
  destruct (possibilities_total v2 k2) as [cs2 Hc2].
  rewrite Hc1, Hc2 in *. simpl in *.
  injection H1 as H1. f_equal. now apply first_match_lower.
Qed.

Lemma get_type_case_insensitive_witness :
  get_type sample_models (pod_manifest "x")
  = get_type sample_models (VDict [(VStr "kind", VStr "POD"); (VStr "apiVersion", VStr "V1")]).
Proof.
  apply (get_type_case_insensitive sample_models (pod_manifest "x")
           (VDict [(VStr "kind", VStr "POD"); (VStr "apiVersion", VStr "V1")])
           "v1" "V1" "Pod" "POD"); reflexivity.
Defined.


(** X4. Registry names that differ only by case share a key of the lookup,
    and the last of them owns it: a name is found under its lower case when
    no later name of the registry has that lower case. *)
Theorem lookup_last_name_wins
    (before after : namespace) (n : string) (x : option pytype) :
  (forall n', In n' (map fst after) -> lower n' <> lower n) ->
  str_get (lookup (before ++ (n, x) :: after)) (lower n) = Some n.
Proof.
  intros Hafter. unfold lookup.
  rewrite map_app, fold_left_app. simpl.
  set (acc := str_set _ (lower n) n).
  assert (Hacc : str_get acc (lower n) = Some n) by apply str_get_set_same.
  clearbody acc. revert acc Hacc.
  induction after as [|[n' y] after IH]; simpl; intros acc Hacc; [exact Hacc|].
  apply IH.
  - intros m Hm. apply Hafter. now right.
  - rewrite str_get_set_other; [exact Hacc|].
    apply Hafter. now left.
Qed.

Lemma lookup_last_name_wins_witness :
  str_get (lookup ([("v1pod", None)] ++ ("V1Pod", Some V1Pod) :: [("V1Container", None)]))
    (lower "V1Pod")
  = Some "V1Pod".
Proof.
  apply (lookup_last_name_wins [("v1pod", None)] [("V1Container", None)] "V1Pod" (Some V1Pod)).
  intros n' Hn'. simpl in Hn'. destruct Hn' as [<-|[]]. vm_compute. discriminate.
Defined.


(** * Further properties of the type signatures *)

Definition nl : string := String newline EmptyString.

Lemma str_app_assoc (a b c : string) : ((a ++ b) ++ c = a ++ (b ++ c))%string.
Proof.
  induction a as [|x a IH]; simpl; [reflexivity|]. now rewrite IH.
Qed.

Lemma has_char_app (c : ascii) (a b : string) :
  has_char c (a ++ b) = has_char c a || has_char c b.
Proof.
  induction a as [|x a IH]; simpl; [reflexivity|].
  rewrite IH. now rewrite orb_assoc.
Qed.

Lemma strip_prefix_spec (p s r : string) :
  strip_prefix p s = Some r <-> s = (p ++ r)%string.
Proof.
  revert s. induction p as [|a p IH]; intros s; simpl.
  - split; intros H; [now inv H|now subst].
  - destruct s as [|b s]; [split; discriminate|].
    destruct (Ascii.eqb_spec a b) as [->|Hne].
    + rewrite IH. split; intros H; [now subst|now inv H].
    + split; [discriminate|]. intros H. inv H. contradiction.
Qed.

Lemma strip_last_app (c a : ascii) (r : string) :
  strip_last c (r ++ String a EmptyString)
  = if Ascii.eqb a c then Some r else None.
Proof.
  induction r as [|x r IH]; simpl; [reflexivity|].
  rewrite IH.
  destruct (r ++ String a EmptyString)%string eqn:Hr.
  - destruct r; discriminate.
  - destruct (Ascii.eqb a c); reflexivity.
Qed.

Lemma strip_last_spec (c : ascii) (s r : string) :
  strip_last c s = Some r <-> s = (r ++ String c EmptyString)%string.
Proof.
  split.
  - revert r. induction s as [|x s IH]; intros r; simpl; [discriminate|].
    destruct s as [|y s].
    + destruct (Ascii.eqb_spec x c) as [->|]; [|discriminate].
      intros H. now inv H.
    + destruct (strip_last c (String y s)) as [r'|]; simpl; [|discriminate].
      intros H. inv H. simpl. f_equal. now apply IH.
  - intros ->. now rewrite strip_last_app, Ascii.eqb_refl.
Qed.

(** The end of a match: the string itself, or the string before one final
    newline. *)
Lemma chop_eol_cases (s : string) :
  s = (chop_eol s ++ nl)%string
  \/ (s = chop_eol s /\ strip_last newline s = None).
Proof.
  unfold chop_eol. destruct (strip_last newline s) as [r|] eqn:H.
  - left. now apply strip_last_spec.
  - right. now split.
Qed.

Lemma chop_eol_app (r : string) (a : ascii) :
  Ascii.eqb a newline = false ->
  chop_eol (r ++ String a EmptyString) = (r ++ String a EmptyString)%string
  /\ chop_eol ((r ++ String a EmptyString) ++ nl) = (r ++ String a EmptyString)%string.
Proof.
  intros Ha. unfold chop_eol, nl. rewrite !strip_last_app, Ha, Ascii.eqb_refl.
  now split.
Qed.

(** X5. The list pattern matches exactly the strings [list[T]] with T free
    of newlines, with or without one final newline, and its group is T:
    whatever stands between the first bracket and the last is the element
    type, brackets included. *)
Theorem list_match_spec (t element_type : string) :
  list_match t = Some element_type
  <-> has_char newline element_type = false
      /\ (t = ("list[" ++ element_type ++ "]")%string
          \/ t = (("list[" ++ element_type ++ "]") ++ nl)%string).
Proof.
  unfold list_match. split.
  - destruct (strip_prefix "list[" t) as [rest|] eqn:Hp; [|discriminate].
    apply strip_prefix_spec in Hp.
    destruct (strip_last "]" (chop_eol rest)) as [T|] eqn:Hl; [|discriminate].
    apply strip_last_spec in Hl.
    destruct (has_char newline T) eqn:Hn; [discriminate|].
    intros H. inv H. split; [exact Hn|].
    destruct (chop_eol_cases rest) as [Hr|[Hr _]]; rewrite Hl in Hr; subst rest.
    + right. simpl. now rewrite str_app_assoc.
    + left. reflexivity.
  - intros [Hn [->| ->]].
    + replace (strip_prefix "list[" ("list[" ++ element_type ++ "]"))
        with (Some (element_type ++ "]")%string) by reflexivity.
      destruct (chop_eol_app element_type "]" eq_refl) as [-> _].
      rewrite strip_last_app. cbn [Ascii.eqb Bool.eqb]. now rewrite Hn.
    + replace (strip_prefix "list[" (("list[" ++ element_type ++ "]") ++ nl))
        with (Some ((element_type ++ "]") ++ nl)%string)
        by (simpl; now rewrite str_app_assoc).
      destruct (chop_eol_app element_type "]" eq_refl) as [_ ->].
      rewrite strip_last_app. cbn [Ascii.eqb Bool.eqb]. now rewrite Hn.
Qed.

Lemma split_last_comma_spec (s key_type val_type : string) :
  split_last_comma s = Some (key_type, val_type)
  <-> s = (key_type ++ ", " ++ val_type)%string /\ split_last_comma val_type = None.
Proof.
  split.
  - revert key_type. induction s as [|c s IH]; intros K; [discriminate|].
    cbn [split_last_comma].
    destruct (split_last_comma s) as [[k v]|] eqn:Hs.
    + intros H. inv H. destruct (IH k eq_refl) as [-> Hv]. now split.
    + destruct (strip_prefix ", " (String c s)) as [v|] eqn:Hp; [|discriminate].
      intros H. inv H. apply strip_prefix_spec in Hp. split; [exact Hp|].
      simpl in Hp. inv Hp. simpl in Hs.
      destruct (split_last_comma val_type) as [[k v]|]; [discriminate|reflexivity].
  - intros [-> Hv]. induction key_type as [|c K IH].
    + simpl. rewrite Hv. reflexivity.
    + cbn [split_last_comma append]. simpl in IH. now rewrite IH.
Qed.

(** X6. The dict pattern matches exactly the strings [dict(K, V)] with K
    and V free of newlines, with or without one final newline, cut at the
    last comma followed by a space: V holds no such comma, K may. So the
    key type of [dict(str, dict(str, str))] is [str, dict(str]. *)
Theorem dict_match_spec (t key_type val_type : string) :
  dict_match t = Some (key_type, val_type)
  <-> has_char newline key_type = false
      /\ has_char newline val_type = false
      /\ split_last_comma val_type = None
      /\ (t = ("dict(" ++ (key_type ++ ", " ++ val_type) ++ ")")%string
          \/ t = (("dict(" ++ (key_type ++ ", " ++ val_type) ++ ")") ++ nl)%string).
Proof.
  unfold dict_match. split.
  - destruct (strip_prefix "dict(" t) as [rest|] eqn:Hp; [|discriminate].
    apply strip_prefix_spec in Hp.
    destruct (strip_last ")" (chop_eol rest)) as [inner|] eqn:Hl; [|discriminate].
    apply strip_last_spec in Hl.
    destruct (has_char newline inner) eqn:Hn; [discriminate|].
    intros H. apply split_last_comma_spec in H. destruct H as [-> Hv].
    rewrite !has_char_app in Hn. simpl in Hn.
    apply orb_false_iff in Hn. destruct Hn as [HK HV].
    split; [exact HK|]. split; [exact HV|]. split; [exact Hv|].
    destruct (chop_eol_cases rest) as [Hr|[Hr _]]; rewrite Hl in Hr; subst rest.
    + right. subst t. reflexivity.
    + left. subst t. reflexivity.
  - intros [HK [HV [Hv Ht]]].
    assert (Hn : has_char newline (key_type ++ ", " ++ val_type) = false).
    { rewrite !has_char_app. simpl. now rewrite HK, HV. }
    assert (Hs : split_last_comma (key_type ++ ", " ++ val_type) = Some (key_type, val_type)).
    { apply split_last_comma_spec. now split. }
    destruct Ht as [->| ->].
    + replace (strip_prefix "dict(" ("dict(" ++ (key_type ++ ", " ++ val_type) ++ ")"))
        with (Some ((key_type ++ ", " ++ val_type) ++ ")")%string) by reflexivity.
      destruct (chop_eol_app (key_type ++ ", " ++ val_type) ")" eq_refl) as [-> _].
      rewrite strip_last_app. cbn [Ascii.eqb Bool.eqb]. now rewrite Hn.
    + replace (strip_prefix "dict(" (("dict(" ++ (key_type ++ ", " ++ val_type) ++ ")") ++ nl))
        with (Some (((key_type ++ ", " ++ val_type) ++ ")") ++ nl)%string)
        by (simpl; now rewrite str_app_assoc).
      destruct (chop_eol_app (key_type ++ ", " ++ val_type) ")" eq_refl) as [_ ->].
      rewrite strip_last_app. cbn [Ascii.eqb Bool.eqb]. now rewrite Hn.
Qed.

(** X7. No type signature is both a list and a dict: the order in which
    [new_object] tries the two patterns decides nothing. *)
Theorem list_match_excludes_dict_match (t element_type : string) :
  list_match t = Some element_type -> dict_match t = None.
Proof.
  unfold list_match, dict_match.
  destruct (strip_prefix "list[" t) as [rest|] eqn:Hp; [|discriminate].
  apply strip_prefix_spec in Hp. subst t. intros _. reflexivity.
Qed.

Lemma list_match_excludes_dict_match_witness :
  dict_match "list[dict(str, str)]" = None.
Proof.
  apply (list_match_excludes_dict_match "list[dict(str, str)]" "dict(str, str)").
  reflexivity.
Defined.

Example nested_dict_signature :
  dict_match "dict(str, dict(str, str))" = Some ("str, dict(str", "str)").
Proof. reflexivity. Qed.

(** * Further properties of the builder *)

(** The mapping gives the field a value: its key is there and not None. *)
Definition present (config : value) (kv : string * string) : bool :=
  match py_get config (VStr (snd kv)) with
  | Ok x => negb (is_none x)
  | Raise _ => false
  end.

Lemma str_set_fresh {A : Type} (d : list (string * A)) (k : string) (x : A) :
  ~ In k (map fst d) -> str_set d k x = d ++ [(k, x)].
Proof.
  induction d as [|[k' y] d IH]; simpl; intros Hk; [reflexivity|].
  destruct (String.eqb_spec k' k) as [->|_]; [exfalso; apply Hk; now left|].
  rewrite IH; [reflexivity|]. intros Hin. apply Hk. now right.
Qed.

Lemma NoDup_app_cons_fresh {A : Type} (l1 l2 : list A) (a : A) :
  NoDup (l1 ++ a :: l2) -> ~ In a l1 /\ ~ In a l2 /\ NoDup (l1 ++ l2).
Proof.
  intros H. pose proof (NoDup_remove_1 _ _ _ H) as H1.
  pose proof (NoDup_remove_2 _ _ _ H) as H2.
  split; [|split]; [| |exact H1]; intros Hin; apply H2, in_or_app; auto.
Qed.

Lemma key_eqb_refl (k : value) : hashable k = true -> key_eqb k k = true.
Proof.
  destruct k; simpl; try discriminate; intros _.
  - reflexivity.
  - apply Bool.eqb_reflx.
  - apply Z.eqb_refl.
  - apply String.eqb_refl.
Qed.

(** Two keys equal to a third are equal. *)
Lemma key_eqb_common (a b c : value) :
  key_eqb a b = true -> key_eqb a c = true -> key_eqb b c = true.
Proof.
  destruct a, b, c; simpl; try discriminate; try reflexivity; intros H1 H2;
    repeat match goal with
           | H : Bool.eqb _ _ = true |- _ => apply Bool.eqb_prop in H
           | H : Z.eqb _ _ = true |- _ => apply Z.eqb_eq in H
           | H : String.eqb _ _ = true |- _ => apply String.eqb_eq in H
           end;
    subst;
    try apply Bool.eqb_reflx; try apply Z.eqb_refl; try apply String.eqb_refl;
    repeat match goal with b : bool |- _ => destruct b end;
    try reflexivity; try discriminate.
Qed.

Lemma dict_lookup_insert_same (d : list (value * value)) (k x : value) :
  hashable k = true -> dict_lookup (dict_insert d k x) k = Some x.
Proof.
  intros Hk. induction d as [|[k' y] d IH]; simpl.
  - now rewrite key_eqb_refl.
  - destruct (key_eqb k' k) eqn:He; simpl; rewrite He; [reflexivity|exact IH].
Qed.

Lemma dict_lookup_insert_other (d : list (value * value)) (k k' x : value) :
  key_eqb k k' = false -> dict_lookup (dict_insert d k x) k' = dict_lookup d k'.
Proof.
  intros Hk. induction d as [|[k0 y] d IH]; simpl.
  - now rewrite Hk.
  - destruct (key_eqb k0 k) eqn:He; simpl.
    + destruct (key_eqb k0 k') eqn:He'; [|reflexivity].
      rewrite (key_eqb_common _ _ _ He He') in Hk. discriminate.
    + now rewrite IH.
Qed.

Lemma dict_comp_app (fk fv : value -> result value) (l1 l2 acc : list (value * value)) :
  dict_comp fk fv (l1 ++ l2) acc
  = (acc' <- dict_comp fk fv l1 acc ;; dict_comp fk fv l2 acc').
Proof.
  revert acc. induction l1 as [|[k v] l1 IH]; simpl; intros acc; [reflexivity|].
  destruct (fk k); simpl; [|reflexivity].
  destruct (fv v); simpl; [|reflexivity].
  destruct (dict_setitem acc a a0); simpl; [apply IH|reflexivity].
Qed.

(** Entries whose cast keys differ from [ck] leave what [ck] is bound to. *)
Lemma dict_comp_keeps (fk fv : value -> result value) (items acc d : list (value * value))
    (ck : value) :
  (forall k v ck', In (k, v) items -> fk k = Ok ck' -> key_eqb ck' ck = false) ->
  dict_comp fk fv items acc = Ok d ->
  dict_lookup d ck = dict_lookup acc ck.
Proof.
  revert acc. induction items as [|[k v] items IH]; simpl; intros acc Hne H.
  - now inv H.
  - destruct (fk k) as [ck'|] eqn:Hk; simpl in H; [|discriminate].
    destruct (fv v) as [cv'|]; simpl in H; [|discriminate].
    unfold dict_setitem in H. destruct (hashable ck'); simpl in H; [|discriminate].
    rewrite (IH _ (fun k0 v0 c Hin => Hne k0 v0 c (or_intror Hin)) H).
    apply dict_lookup_insert_other. apply (Hne k v); [now left|exact Hk].
Qed.

Tactic Notation "unfold_head" constr(t) "in" hyp(H) :=
  let h := head_of t in unfold h in H.

Section BuilderMore.
Variable builtin_callables : string -> option (value -> result value).
Variable client : namespace.

Abbreviation builtins_get := (builtins_get builtin_callables).
Abbreviation new_object := (new_object builtin_callables client).
Abbreviation cast_value := (cast_value builtin_callables client).
Abbreviation constructor_args := (constructor_args builtin_callables client).

(** The loop of [new_object], from any [constructor_args] on: it adds the
    fields the mapping gives a value, at the end and in order. *)
Lemma for_each_set_field_keys (cast : value -> string -> result value)
    (root_type : pytype) (config : value) (items : list (string * string)) :
  forall acc args : kwargs,
    NoDup (map fst acc ++ map fst items) ->
    for_each (set_field cast root_type config) items acc = Ok args ->
    map fst args = map fst acc ++ map fst (filter (present config) items).
Proof.
  induction items as [|[k v] items IH]; simpl; intros acc args Hnd H.
  - inv H. now rewrite app_nil_r.
  - destruct (NoDup_app_cons_fresh _ _ _ Hnd) as [Hacc [_ Hnd']].
    unfold present at 1. simpl.
    destruct (py_get config (VStr v)) as [cfg_value|]; simpl in H; [|discriminate].
    destruct (is_none cfg_value); simpl.
    + now apply IH.
    + destruct (field_type root_type k) as [t|]; simpl in H; [|discriminate].
      destruct (field_value cast cfg_value t) as [y|]; simpl in H; [|discriminate].
      rewrite str_set_fresh in H by exact Hacc.
      assert (Hnd1 : NoDup (map fst (acc ++ [(k, y)]) ++ map fst items)).
      { rewrite map_app, <- app_assoc. exact Hnd. }
      rewrite (IH _ _ Hnd1 H).
      rewrite map_app, <- app_assoc. reflexivity.
Qed.

Lemma for_each_set_field_keeps (cast : value -> string -> result value)
    (root_type : pytype) (config : value) (items : list (string * string)) (k : string) :
  forall acc args : kwargs,
    ~ In k (map fst items) ->
    for_each (set_field cast root_type config) items acc = Ok args ->
    str_get args k = str_get acc k.
Proof.
  induction items as [|[k' v'] items IH]; simpl; intros acc args Hk H.
  - now inv H.
  - destruct (py_get config (VStr v')) as [cfg_value|]; simpl in H; [|discriminate].
    assert (Hk' : ~ In k (map fst items)) by (intros Hin; apply Hk; now right).
    destruct (is_none cfg_value).
    + now apply IH.
    + destruct (field_type root_type k') as [t|]; simpl in H; [|discriminate].
      destruct (field_value cast cfg_value t) as [y|]; simpl in H; [|discriminate].
      rewrite (IH _ _ Hk' H). apply str_get_set_other.
      intros ->. apply Hk. now left.
Qed.

Lemma for_each_set_field_binds (cast : value -> string -> result value)
    (root_type : pytype) (config cfg_value : value) (items : list (string * string))
    (k v : string) :
  forall acc args : kwargs,
    NoDup (map fst items) ->
    In (k, v) items ->
    py_get config (VStr v) = Ok cfg_value ->
    is_none cfg_value = false ->
    for_each (set_field cast root_type config) items acc = Ok args ->
    exists t y,
      field_type root_type k = Ok t
      /\ field_value cast cfg_value t = Ok y
      /\ str_get args k = Some y.
Proof.
  induction items as [|[k' v'] items IH]; intros acc args Hnd Hin Hget Hn H;
    [destruct Hin|].
  cbn [for_each] in H. simpl in Hnd, Hin. inv Hnd.
  destruct Hin as [Heq|Hin].
  - inv Heq. unfold set_field in H. rewrite Hget in H. simpl in H. rewrite Hn in H.
    destruct (field_type root_type k) as [t|]; simpl in H; [|discriminate].
    destruct (field_value cast cfg_value t) as [y|] eqn:Hy; simpl in H; [|discriminate].
    exists t, y. split; [reflexivity|]. split; [exact Hy|].
    rewrite (for_each_set_field_keeps _ _ _ _ _ _ _ H2 H).
    apply str_get_set_same.
  - destruct (set_field cast root_type config acc (k', v')) as [acc'|] eqn:Hs;
      simpl in H; [|discriminate].
    now apply (IH acc' args).
Qed.

(** X8. The constructor is given exactly the fields that the mapping gives
    a value, in the order of [attribute_map]. *)
Theorem constructor_args_keys
    (root_type : pytype) (config : value) (amap : list (string * string)) (args : kwargs) :
  attribute_map root_type = Some amap ->
  NoDup (map fst amap) ->
  constructor_args root_type config = Ok args ->
  map fst args = map fst (filter (present config) amap).
Proof.
  intros Hmap Hnd H.
  unfold_head constructor_args in H.
  unfold constructor_args_of, attribute_items in H. rewrite Hmap in H. simpl in H.
  now apply (for_each_set_field_keys _ _ _ _ [] args Hnd H).
Qed.

(** X9. Each field that the mapping gives a value reaches the constructor
    as the cast of that value to the field's type. *)
Theorem constructor_args_binds
    (root_type : pytype) (config cfg_value : value) (amap : list (string * string))
    (args : kwargs) (k v : string) :
  attribute_map root_type = Some amap ->
  NoDup (map fst amap) ->
  In (k, v) amap ->
  py_get config (VStr v) = Ok cfg_value ->
  is_none cfg_value = false ->
  constructor_args root_type config = Ok args ->
  exists t y,
    field_type root_type k = Ok t
    /\ field_value cast_value cfg_value t = Ok y
    /\ str_get args k = Some y.
Proof.
  intros Hmap Hnd Hin Hget Hn H.
  unfold_head constructor_args in H.
  unfold constructor_args_of, attribute_items in H. rewrite Hmap in H. simpl in H.
  exact (for_each_set_field_binds _ _ _ _ _ _ _ [] args Hnd Hin Hget Hn H).
Qed.

(** X10. A field whose type is the name of a class of [kubernetes.client]
    is never left as the raw value: the constructor is given the object that
    [new_object] builds from it with that class. *)
Theorem nested_field_is_built
    (root_type k_type : pytype) (config cfg_value : value) (amap : list (string * string))
    (args : kwargs) (k v t : string) :
  attribute_map root_type = Some amap ->
  NoDup (map fst amap) ->
  In (k, v) amap ->
  py_get config (VStr v) = Ok cfg_value ->
  is_none cfg_value = false ->
  field_type root_type k = Ok t ->
  list_match t = None ->
  dict_match t = None ->
  builtins_get t = None ->
  ns_get client t = Some k_type ->
  constructor_args root_type config = Ok args ->
  exists o, new_object k_type cfg_value = Ok o /\ str_get args k = Some o.
Proof.
  intros Hmap Hnd Hin Hget Hn Hty Hl Hd Hb Hc H.
  unfold_head constructor_args in H.
  unfold constructor_args_of, attribute_items in H. rewrite Hmap in H. simpl in H.
  destruct (for_each_set_field_binds _ _ _ _ _ _ _ [] args Hnd Hin Hget Hn H)
    as [t' [y [Hty' [Hy Hk]]]].
  rewrite Hty in Hty'. inv Hty'.
  unfold field_value in Hy. rewrite Hl, Hd in Hy.
  rewrite (cast_value_nested _ _ _ _ _ Hb Hc) in Hy.
  now exists y.
Qed.

(** X11. The fields are cast in the order of [attribute_map] and the first
    failure is the outcome: when the fields before one build and that one
    raises, [new_object] raises that error, whatever the fields after it, and
    the constructor is not reached. *)
Theorem new_object_fails_fast
    (root_type : pytype) (config : value) (before after : list (string * string))
    (args : kwargs) (k v : string) (e : exn) :
  attribute_map root_type = Some (before ++ (k, v) :: after) ->
  for_each (set_field cast_value root_type config) before [] = Ok args ->
  set_field cast_value root_type config args (k, v) = Raise e ->
  new_object root_type config = Raise e.
Proof.
  intros Hmap Hbefore Hfail.
  rewrite new_object_unfold.
  unfold new_object_body, constructor_args_of, attribute_items. rewrite Hmap. simpl.
  rewrite for_each_app, Hbefore. cbn [bind for_each].
  now rewrite Hfail.
Qed.

(** X12. A value that is no mapping where an object is to be built: with a
    class that has fields, reading the first one raises AttributeError (the
    value has no [get]); a class with no field never reads the value and is
    constructed with no argument. *)
Theorem new_object_non_mapping (root_type : pytype) (config : value) :
  (forall d, config <> VDict d) ->
  (forall kv rest,
      attribute_map root_type = Some (kv :: rest) ->
      new_object root_type config = Raise (AttributeError "get"))
  /\ (attribute_map root_type = Some [] ->
      new_object root_type config = init root_type []).
Proof.
  intros Hd. split.
  - intros [k v] rest Hmap. rewrite new_object_unfold.
    unfold new_object_body, constructor_args_of, attribute_items. rewrite Hmap. simpl.
    destruct config as [| | | | |d|]; try reflexivity.
    exfalso. now apply (Hd d).
  - intros Hmap. rewrite new_object_unfold.
    unfold new_object_body, constructor_args_of, attribute_items. now rewrite Hmap.
Qed.
End BuilderMore.

(** X13. A string given where a list is expected is taken character by
    character: with an element cast that leaves one-character strings as
    they are (as [str] does), the field becomes the list of the characters
    of the string. *)
Theorem string_for_list_field_is_split
    (cast : value -> string -> result value) (s t element_type : string) :
  list_match t = Some element_type ->
  (forall c, cast (VStr (String c EmptyString)) element_type
             = Ok (VStr (String c EmptyString))) ->
  field_value cast (VStr s) t = Ok (VList (chars s)).
Proof.
  intros Hm Hc. unfold field_value. rewrite Hm. simpl.
  assert (H : map_result (fun i => cast i element_type) (chars s) = Ok (chars s)).
  { induction s as [|c s IH]; simpl; [reflexivity|]. now rewrite Hc, IH. }
  now rewrite H.
Qed.

(** X14. In a dict field an entry is bound to the last value given for its
    key: when two keys of the mapping cast to equal keys, the later entry
    overwrites the earlier one. *)
Theorem dict_field_last_value_wins
    (cast : value -> string -> result value) (cfg_value : value)
    (t key_type val_type : string) (items1 items2 : list (value * value))
    (k v ck cv r : value) :
  list_match t = None ->
  dict_match t = Some (key_type, val_type) ->
  py_items cfg_value = Ok (items1 ++ (k, v) :: items2) ->
  cast k key_type = Ok ck ->
  cast v val_type = Ok cv ->
  (forall k' v' ck', In (k', v') items2 -> cast k' key_type = Ok ck' ->
                     key_eqb ck' ck = false) ->
  field_value cast cfg_value t = Ok r ->
  exists d, r = VDict d /\ dict_lookup d ck = Some cv.
Proof.
  intros Hl Hm Hit Hk Hv Hlater H.
  unfold field_value in H. rewrite Hl, Hm, Hit in H. simpl in H.
  rewrite dict_comp_app in H.
  destruct (dict_comp (fun k => cast k key_type) (fun v => cast v val_type) items1 [])
    as [acc|]; simpl in H; [|discriminate].
  rewrite Hk, Hv in H. simpl in H.
  unfold dict_setitem in H. destruct (hashable ck) eqn:Hh; simpl in H; [|discriminate].
  destruct (dict_comp (fun k => cast k key_type) (fun v => cast v val_type) items2
              (dict_insert acc ck cv)) as [d|] eqn:Hd; simpl in H; [|discriminate].
  inv H. exists d. split; [reflexivity|].
  rewrite (dict_comp_keeps _ _ _ _ _ ck Hlater Hd).
  now apply dict_lookup_insert_same.
Qed.

Definition V1Pod_fields : list (string * string) :=
  [("api_version", "apiVersion"); ("kind", "kind"); ("metadata", "metadata");
   ("spec", "spec")].

Definition pod_args (name : string) : kwargs :=
  [("api_version", VStr "v1"); ("kind", VStr "Pod");
   ("metadata", VObj "V1ObjectMeta" [("name", VStr name)])].

Lemma V1Pod_fields_NoDup : NoDup (map fst V1Pod_fields).
Proof. repeat constructor; simpl; intuition discriminate. Defined.

Lemma constructor_args_keys_witness :
  map fst (pod_args "x") = map fst (filter (present (pod_manifest "x")) V1Pod_fields).
Proof.
  apply (constructor_args_keys sample_callables sample_models V1Pod (pod_manifest "x")
           V1Pod_fields (pod_args "x")).
  - reflexivity.
  - exact V1Pod_fields_NoDup.
  - reflexivity.
Defined.

Lemma constructor_args_binds_witness :
  exists t y,
    field_type V1Pod "kind" = Ok t
    /\ field_value (cast_value sample_callables sample_models) (VStr "Pod") t = Ok y
    /\ str_get (pod_args "x") "kind" = Some y.
Proof.
  apply (constructor_args_binds sample_callables sample_models V1Pod (pod_manifest "x")
           (VStr "Pod") V1Pod_fields (pod_args "x") "kind" "kind").
  - reflexivity.
  - exact V1Pod_fields_NoDup.
  - simpl. tauto.
  - reflexivity.
  - reflexivity.
  - reflexivity.
Defined.

Lemma nested_field_is_built_witness :
  exists o,
    new_object sample_callables sample_models V1ObjectMeta (VDict [(VStr "name", VStr "x")])
    = Ok o
    /\ str_get (pod_args "x") "metadata" = Some o.
Proof.
  apply (nested_field_is_built sample_callables sample_models V1Pod V1ObjectMeta
           (pod_manifest "x") (VDict [(VStr "name", VStr "x")]) V1Pod_fields (pod_args "x")
           "metadata" "metadata" "V1ObjectMeta").
  - reflexivity.
  - exact V1Pod_fields_NoDup.
  - simpl. tauto.
  - reflexivity.
  - reflexivity.
  - reflexivity.
  - reflexivity.
  - reflexivity.
  - reflexivity.
  - reflexivity.
  - reflexivity.
Defined.

Definition stamped_metadata : value :=
  VDict [(VStr "name", VStr "x");
         (VStr "creationTimestamp", VStr "2020-01-01T00:00:00Z")].

Lemma new_object_fails_fast_witness :
  new_object sample_callables sample_models V1ObjectMeta stamped_metadata
  = Raise (ValueError "Unable to determine cast type behavior: datetime").
Proof.
  apply (new_object_fails_fast sample_callables sample_models V1ObjectMeta stamped_metadata
           [("name", "name"); ("labels", "labels")] []
           [("name", VStr "x")] "creation_timestamp" "creationTimestamp").
  - reflexivity.
  - reflexivity.
  - reflexivity.
Defined.

Lemma new_object_non_mapping_witness :
  (forall kv rest,
      attribute_map V1ObjectMeta = Some (kv :: rest) ->
      new_object sample_callables sample_models V1ObjectMeta (VStr "x")
      = Raise (AttributeError "get"))
  /\ (attribute_map V1ObjectMeta = Some [] ->
      new_object sample_callables sample_models V1ObjectMeta (VStr "x")
      = init V1ObjectMeta []).
Proof.
  apply (new_object_non_mapping sample_callables sample_models V1ObjectMeta (VStr "x")).
  discriminate.
Defined.

Lemma string_for_list_field_is_split_witness :
  field_value (cast_value sample_callables sample_models) (VStr "ls") "list[str]"
  = Ok (VList (chars "ls")).
Proof.
  apply (string_for_list_field_is_split (cast_value sample_callables sample_models)
           "ls" "list[str]" "str").
  - reflexivity.
  - intros c. reflexivity.
Defined.

Lemma dict_field_last_value_wins_witness :
  exists d,
    VDict [(VStr "True", VStr "b")] = VDict d
    /\ dict_lookup d (VStr "True") = Some (VStr "b").
Proof.
  apply (dict_field_last_value_wins (cast_value sample_callables sample_models)
           (VDict [(VBool true, VStr "a"); (VStr "True", VStr "b")])
           "dict(str, str)" "str" "str"
           [(VBool true, VStr "a")] [] (VStr "True") (VStr "b") (VStr "True") (VStr "b")).
  - reflexivity.
  - reflexivity.
  - reflexivity.
  - reflexivity.
  - reflexivity.
  - intros k' v' ck' [].
  - reflexivity.
Defined.

(** * Further properties of the loaders *)

Lemma io_for_each_filter {S A : Type} (body : S -> A -> io S) (keep : A -> bool)
    (l : list A) (s : S) (w : world) :
  (forall a s' w', keep a = false -> body s' a w' = (Ok s', w')) ->
  io_for_each body l s w = io_for_each body (filter keep l) s w.
Proof.
  intros H. revert s w. induction l as [|a l IH]; simpl; intros s w; [reflexivity|].
  destruct (keep a) eqn:Hk; simpl.
  - unfold io_bind. destruct (body s a w) as [[s1|e] w1]; [apply IH|reflexivity].
  - unfold io_bind. rewrite (H a s w Hk). apply IH.
Qed.

Lemma io_for_each_app {S A : Type} (body : S -> A -> io S) (l l' : list A) (s : S) (w : world) :
  io_for_each body (l ++ l') s w
  = (s' <<- io_for_each body l s ;; io_for_each body l' s') w.
Proof.
  revert s w. induction l as [|a l IH]; simpl; intros s w; [reflexivity|].
  unfold io_bind. destruct (body s a w) as [[s1|e] w1]; [|reflexivity].
  rewrite IH. reflexivity.
Qed.

Section LoaderMore.
Variable builtin_callables : string -> option (value -> result value).
Variable client : namespace.
Variable models : namespace.
Variable repr : value -> string.
Variable yaml_load_all : string -> list (result value).
Variable isdir : string -> bool.
Variable read_text : string -> result string.

Abbreviation new_object := (new_object builtin_callables client).
Abbreviation load_manifests := (load_manifests builtin_callables client models repr).
Abbreviation load_file :=
  (load_file builtin_callables client models repr yaml_load_all read_text).
Abbreviation load_path_on listdir :=
  (load_path builtin_callables client models repr yaml_load_all isdir listdir read_text).

(** A document and the object [load_file] makes of it. *)
Definition loaded_from (next : result value) (obj : value) : Prop :=
  exists manifest obj_type,
    next = Ok manifest
    /\ get_type models manifest = Ok (Some obj_type)
    /\ new_object obj_type manifest = Ok obj.

Lemma load_manifests_app (l1 l2 : list (result value)) (objs : list value) :
  load_manifests (l1 ++ l2) objs
  = (objs' <- load_manifests l1 objs ;; load_manifests l2 objs').
Proof.
  revert objs. induction l1 as [|next l1 IH]; simpl; intros objs; [reflexivity|].
  destruct next as [manifest|]; simpl; [|reflexivity].
  destruct (get_type models manifest) as [[obj_type|]|]; simpl; try reflexivity.
  destruct (new_object obj_type manifest); simpl; [apply IH|reflexivity].
Qed.

Lemma load_manifests_objects (manifests : list (result value)) :
  forall objs objs',
    load_manifests manifests objs = Ok objs' ->
    exists new, objs' = objs ++ new /\ Forall2 loaded_from manifests new.
Proof.
  induction manifests as [|next rest IH]; simpl; intros objs objs' H.
  - inv H. exists []. split; [now rewrite app_nil_r|constructor].
  - destruct next as [manifest|]; simpl in H; [|discriminate].
    destruct (get_type models manifest) as [[obj_type|]|] eqn:Hty; simpl in H;
      try discriminate.
    destruct (new_object obj_type manifest) as [obj|] eqn:Hobj; simpl in H; [|discriminate].
    destruct (IH _ _ H) as [new [-> Hnew]].
    exists (obj :: new). split; [now rewrite <- app_assoc|].
    constructor; [|exact Hnew]. now exists manifest, obj_type.
Qed.

(** Without a renderer [load_file] touches neither the store nor the record
    of render calls, and what it returns does not depend on them. *)
Lemma load_file_no_renderer (path : string) (w : world) :
  load_file path None w
  = (f <- read_text path ;; load_manifests (yaml_load_all f) [], w).
Proof.
  unfold_head load_file. unfold io_bind, io_lift, io_ret.
  destruct (read_text path); reflexivity.
Qed.

(** X15. [load_file] returns one object for each document of the file, in
    the order of the documents: the object [new_object] builds from the
    document with the class [get_type] resolves for it. *)
Theorem load_file_one_object_per_document
    (path f : string) (w w' : world) (objs : list value) :
  read_text path = Ok f ->
  load_file path None w = (Ok objs, w') ->
  w' = w /\ Forall2 loaded_from (yaml_load_all f) objs.
Proof.
  intros Hf H. rewrite load_file_no_renderer, Hf in H. simpl in H.
  injection H as H <-. split; [reflexivity|].
  destruct (load_manifests_objects _ _ _ H) as [new [-> Hnew]]. exact Hnew.
Qed.

(** X16. A document whose type [get_type] does not know makes [load_file]
    raise a ValueError naming the document: the objects of the documents
    before it are not returned, the documents after it are not looked at. *)
Theorem load_file_unknown_type
    (path f : string) (before after : list (result value)) (manifest : value)
    (objs : list value) (w : world) :
  read_text path = Ok f ->
  yaml_load_all f = before ++ Ok manifest :: after ->
  load_manifests before [] = Ok objs ->
  get_type models manifest = Ok None ->
  load_file path None w
  = (Raise (ValueError
              ("Unable to determine object type for manifest: " ++ repr manifest)%string),
     w).
Proof.
  intros Hf Hdocs Hbefore Hty.
  rewrite load_file_no_renderer, Hf. simpl.
  rewrite Hdocs, load_manifests_app, Hbefore. simpl.
  now rewrite Hty.
Qed.

(** X17. The names of the directory that do not end in [.yaml] or [.yml]
    are nothing to [load_path]: it does what it does on the listing without
    them, and never opens them. *)
Theorem load_path_skips_other_names
    (listdir : string -> list string) (path : string) (renderer : option Renderer)
    (w : world) :
  load_path_on listdir path renderer w
  = load_path_on (fun p => filter is_manifest_name (listdir p)) path renderer w.
Proof.
  unfold load_path.
  destruct (isdir path); simpl; [|reflexivity].
  unfold io_bind at 1 3. unfold alloc at 1 3. cbn [fst snd].
  unfold io_bind at 1 2.
  rewrite (io_for_each_filter _ is_manifest_name (listdir path)); [reflexivity|].
  intros f s' w' Hf. now rewrite Hf.
Qed.

(** The loop of [load_path] without a renderer, when every manifest file
    loads: the list it ends with is the one it began with, then what each
    file gave. *)
Lemma load_path_loop_concat (path : string) (loads : string -> list value)
    (fs : list string) :
  (forall f, In f fs -> is_manifest_name f = true ->
             forall w, fst (load_file (path_join path f) None w) = Ok (loads f)) ->
  forall (objs : nat) (w : world),
    exists objs' w',
      io_for_each
        (fun objs f =>
           if is_manifest_name f then
             loaded <<- load_file (path_join path f) None ;;
             old <<- deref objs ;;
             alloc (old ++ loaded)
           else io_ret objs)
        fs objs w = (Ok objs', w')
      /\ nth objs' (cells w') []
         = nth objs (cells w) [] ++ concat (map loads (filter is_manifest_name fs)).
Proof.
  induction fs as [|f fs IH]; simpl; intros Hloads objs w.
  - exists objs, w. split; [reflexivity|now rewrite app_nil_r].
  - assert (Hrest : forall f', In f' fs -> is_manifest_name f' = true ->
                               forall w, fst (load_file (path_join path f') None w)
                                         = Ok (loads f')).
    { intros f' Hin. apply Hloads. now right. }
    unfold io_bind at 1.
    destruct (is_manifest_name f) eqn:Hf.
    + pose proof (Hloads f (or_introl eq_refl) Hf w) as Hl.
      rewrite load_file_no_renderer in *. simpl in Hl.
      unfold io_bind at 1. rewrite load_file_no_renderer. rewrite Hl.
      unfold io_bind at 1. unfold deref at 1. unfold alloc at 1. cbn [cells calls].
      destruct (IH Hrest (length (cells w))
                  {| cells := cells w ++ [nth objs (cells w) [] ++ loads f];
                     calls := calls w |}) as [objs' [w' [Hloop Hnth]]].
      exists objs', w'. split; [exact Hloop|].
      rewrite Hnth. cbn [cells]. rewrite app_nth2 by lia. rewrite Nat.sub_diag.
      simpl. now rewrite <- app_assoc.
    + unfold io_ret at 1. destruct (IH Hrest objs w) as [objs' [w' [Hloop Hnth]]].
      exists objs', w'. now split.
Qed.

(** X18. Without a renderer, when every manifest file of the directory
    loads, [load_path] returns the objects of the files one after the other,
    in the order of the listing. *)
Theorem load_path_concatenates
    (listdir : string -> list string) (path : string) (loads : string -> list value) :
  isdir path = true ->
  (forall f, In f (listdir path) -> is_manifest_name f = true ->
             forall w, fst (load_file (path_join path f) None w) = Ok (loads f)) ->
  forall w,
    fst (load_path_on listdir path None w)
    = Ok (concat (map loads (filter is_manifest_name (listdir path)))).
Proof.
  intros Hdir Hloads w. unfold load_path. rewrite Hdir. simpl.
  unfold io_bind at 1. unfold alloc at 1. cbn [fst snd].
  unfold io_bind at 1.
  destruct (load_path_loop_concat path loads (listdir path) Hloads (length (cells w))
              {| cells := cells w ++ [[]]; calls := calls w |}) as [objs' [w' [Hloop Hnth]]].
  rewrite Hloop. unfold deref. simpl. rewrite Hnth. cbn [cells].
  rewrite app_nth2 by lia. now rewrite Nat.sub_diag.
Qed.

(** X19. Without a renderer, the first manifest file that fails to load
    ends [load_path] with its error: the objects of the files before it are
    not returned and the files after it are not opened. *)
Theorem load_path_fails_with_first_failure
    (listdir : string -> list string) (path f : string) (before after : list string)
    (loads : string -> list value) (e : exn) :
  isdir path = true ->
  listdir path = before ++ f :: after ->
  (forall f', In f' before -> is_manifest_name f' = true ->
              forall w, fst (load_file (path_join path f') None w) = Ok (loads f')) ->
  is_manifest_name f = true ->
  (forall w, fst (load_file (path_join path f) None w) = Raise e) ->
  forall w, fst (load_path_on listdir path None w) = Raise e.
Proof.
  intros Hdir Hlist Hbefore Hf Hfail w. unfold load_path. rewrite Hdir, Hlist. simpl.
  unfold io_bind at 1. unfold alloc at 1. cbn [fst snd].
  unfold io_bind at 1. rewrite io_for_each_app. unfold io_bind at 1.
  destruct (load_path_loop_concat path loads before Hbefore (length (cells w))
              {| cells := cells w ++ [[]]; calls := calls w |}) as [objs' [w' [Hloop _]]].
  rewrite Hloop. simpl. unfold io_bind at 1. rewrite Hf. unfold io_bind at 1.
  specialize (Hfail w'). rewrite load_file_no_renderer in *. simpl in Hfail.
  now rewrite Hfail.
Qed.
End LoaderMore.

(** ** Which names are manifests *)

Lemma has_char_lower (c : ascii) (s : string) :
  caseless c -> has_char c (lower s) = has_char c s.
Proof.
  intros Hc. induction s as [|x s IH]; simpl; [reflexivity|]. now rewrite Hc, IH.
Qed.

Lemma from_last_dot_none (p : string) :
  from_last_dot p = None <-> has_char "." p = false.
Proof.
  induction p as [|c p IH]; simpl; [tauto|].
  destruct (from_last_dot p) as [e|].
  - split; [discriminate|]. intros H. apply orb_false_iff in H.
    destruct H as [_ H]. apply IH in H. discriminate.
  - destruct (Ascii.eqb c "."); simpl; [split; discriminate|]. tauto.
Qed.

Lemma from_last_dot_app (q rest : string) :
  has_char "." rest = false ->
  from_last_dot (q ++ String "." rest) = Some (String "." rest).
Proof.
  intros Hr. induction q as [|c q IH]; simpl.
  - apply from_last_dot_none in Hr. now rewrite Hr.
  - now rewrite IH.
Qed.

Lemma from_last_dot_sound (p e : string) :
  from_last_dot p = Some e ->
  exists pre rest,
    p = (pre ++ e)%string /\ e = String "." rest /\ has_char "." rest = false.
Proof.
  revert e. induction p as [|c p IH]; simpl; intros e; [discriminate|].
  destruct (from_last_dot p) as [e'|] eqn:Hp.
  - intros H. inv H. destruct (IH e eq_refl) as [pre [rest [-> [-> Hr]]]].
    now exists (String c pre), rest.
  - destruct (Ascii.eqb_spec c ".") as [->|]; [|discriminate].
    intros H. inv H. exists EmptyString, p. apply from_last_dot_none in Hp. now split.
Qed.

Lemma skip_dots_app (a b : string) :
  skip_dots a <> EmptyString -> skip_dots (a ++ b) = (skip_dots a ++ b)%string.
Proof.
  induction a as [|c a IH]; simpl; intros H; [contradiction|].
  destruct (Ascii.eqb c "."); [now apply IH|reflexivity].
Qed.

(** A name is its leading dots, then the rest. *)
Lemma skip_dots_split (p : string) :
  exists dots,
    p = (dots ++ skip_dots p)%string
    /\ forall b, skip_dots (dots ++ b) = skip_dots b.
Proof.
  induction p as [|c p [dots [Hp Hd]]]; simpl.
  - exists EmptyString. now split.
  - destruct (Ascii.eqb_spec c ".") as [->|Hc].
    + exists (String "." dots). split; [simpl; now rewrite <- Hp|].
      intros b. simpl. apply Hd.
    + exists EmptyString. now split.
Qed.

Lemma skip_dots_head (p q : string) (c : ascii) :
  skip_dots p = String c q -> Ascii.eqb c "." = false.
Proof.
  induction p as [|x p IH]; simpl; [discriminate|].
  destruct (Ascii.eqb x ".") eqn:Hx; [exact IH|].
  intros H. now inv H.
Qed.

Definition manifest_ext (ext : string) : Prop :=
  lower ext = ".yaml" \/ lower ext = ".yml".

Lemma manifest_ext_shape (ext : string) :
  manifest_ext ext -> exists rest, ext = String "." rest /\ has_char "." rest = false.
Proof.
  intros H. destruct ext as [|c rest]; [destruct H; discriminate|].
  exists rest.
  assert (Hc : Ascii.eqb (lower_char c) "." = true /\ has_char "." (lower rest) = false).
  { destruct H as [H|H]; simpl in H; injection H as Hc Hr; rewrite Hc, Hr; now split. }
  destruct Hc as [Hc Hr]. rewrite dot_caseless in Hc.
  rewrite has_char_lower in Hr by exact dot_caseless.
  apply Ascii.eqb_eq in Hc. now subst.
Qed.

(** X20. The names [load_path] loads are the names with a stem that is not
    only dots followed by [.yaml] or [.yml] in any case: [a.YAML] and
    [a.b.yml] are, [.yaml] and [a.yaml.bak] are not. *)
Theorem is_manifest_name_spec (f : string) :
  is_manifest_name f = true
  <-> exists stem ext,
        f = (stem ++ ext)%string /\ skip_dots stem <> EmptyString /\ manifest_ext ext.
Proof.
  unfold is_manifest_name, splitext_ext. split.
  - intros H.
    destruct (from_last_dot (skip_dots f)) as [ext|] eqn:He; [|discriminate].
    destruct (from_last_dot_sound _ _ He) as [pre [rest [Hp [Hext Hr]]]].
    destruct (skip_dots_split f) as [dots [Hf Hd]].
    exists (dots ++ pre)%string, ext. split; [|split].
    + rewrite str_app_assoc, <- Hp. exact Hf.
    + rewrite Hd. destruct pre as [|c pre].
      * simpl in Hp. rewrite Hext in Hp.
        apply skip_dots_head in Hp. discriminate.
      * simpl in Hp. pose proof (skip_dots_head _ _ _ Hp) as Hc.
        simpl. rewrite Hc. discriminate.
    + apply orb_true_iff in H. unfold manifest_ext.
      destruct H as [H|H]; apply String.eqb_eq in H; auto.
  - intros [stem [ext [-> [Hs He]]]].
    destruct (manifest_ext_shape _ He) as [rest [-> Hr]].
    rewrite skip_dots_app by exact Hs.
    rewrite from_last_dot_app by exact Hr.
    destruct He as [-> | ->]; reflexivity.
Qed.

(** ** The renderer *)

Lemma str_get_absent {A : Type} (d : list (string * A)) (k : string) :
  ~ In k (map fst d) -> str_get d k = None.
Proof.
  induction d as [|[k' x] d IH]; simpl; intros H; [reflexivity|].
  destruct (String.eqb_spec k' k) as [->|_]; [exfalso; apply H; now left|].
  apply IH. intros Hin. apply H. now right.
Qed.

Lemma dict_merge_get {A : Type} (a b : list (string * A)) (k : string) :
  NoDup (map fst b) ->
  str_get (dict_merge a b) k
  = match str_get b k with
    | Some x => Some x
    | None => str_get a k
    end.
Proof.
  unfold dict_merge. revert a. induction b as [|[k' x] b IH]; simpl; intros a Hnd;
    [reflexivity|].
  inv Hnd. rewrite IH by assumption. rewrite str_get_set.
  destruct (String.eqb_spec k' k) as [->|_]; [|reflexivity].
  now rewrite str_get_absent.
Qed.

(** X21. The render callable is given the renderer's context overlaid with
    the keyword arguments of the call: a name both bind has the value of
    the call (so [path] is always the file being loaded), any other name of
    the renderer's context is passed on, a list being read as it is then. *)
Theorem render_context_precedence
    (self : Renderer) (template : string) (kw : list (string * ctx_entry))
    (w w' : world) (r : result string) :
  NoDup (map fst kw) ->
  render self template kw w = (r, w') ->
  exists c,
    calls w' = calls w ++ [c]
    /\ cells w' = cells w
    /\ call_template c = template
    /\ r = render_callable self template (call_context c)
    /\ forall k,
        str_get (call_context c) k
        = option_map (read_entry (cells w))
            (match str_get kw k with
             | Some e => Some e
             | None => str_get (context self) k
             end).
Proof.
  intros Hnd H. unfold render in H. inv H.
  eexists. split; [reflexivity|]. simpl. repeat split.
  intros k. rewrite read_context_get. now rewrite dict_merge_get.
Qed.

Lemma render_context_precedence_witness :
  exists c,
    calls (snd (render {| render_callable := default_render;
                          context := [("path", CtxValue (VStr "old"));
                                      ("env", CtxValue (VStr "test"))] |}
                  "t" [("path", CtxValue (VStr "new"))] empty_world))
    = calls empty_world ++ [c]
    /\ cells (snd (render {| render_callable := default_render;
                             context := [("path", CtxValue (VStr "old"));
                                         ("env", CtxValue (VStr "test"))] |}
                     "t" [("path", CtxValue (VStr "new"))] empty_world))
       = cells empty_world
    /\ call_template c = "t"
    /\ Ok "t" = default_render "t" (call_context c)
    /\ forall k,
        str_get (call_context c) k
        = option_map (read_entry (cells empty_world))
            (match str_get [("path", CtxValue (VStr "new"))] k with
             | Some e => Some e
             | None => str_get [("path", CtxValue (VStr "old"));
                                ("env", CtxValue (VStr "test"))] k
             end).
Proof.
  apply (render_context_precedence
           {| render_callable := default_render;
              context := [("path", CtxValue (VStr "old")); ("env", CtxValue (VStr "test"))] |}
           "t" [("path", CtxValue (VStr "new"))] empty_world).
  - repeat constructor. simpl. tauto.
  - reflexivity.
Defined.

(** ** The default render callable *)

(** Two runs that return the same and leave the same store when they start
    from the same store, whatever the render calls recorded. *)
Definition same_but_calls {A : Type} (m1 m2 : io A) : Prop :=
  forall w1 w2,
    cells w1 = cells w2 ->
    fst (m1 w1) = fst (m2 w2) /\ cells (snd (m1 w1)) = cells (snd (m2 w2)).

Lemma same_but_calls_bind {A B : Type} (m1 m2 : io A) (f1 f2 : A -> io B) :
  same_but_calls m1 m2 ->
  (forall a, same_but_calls (f1 a) (f2 a)) ->
  same_but_calls (io_bind m1 f1) (io_bind m2 f2).
Proof.
  intros Hm Hf w1 w2 Hc. unfold io_bind.
  destruct (Hm w1 w2 Hc) as [Hr Hc'].
  destruct (m1 w1) as [[a1|e1] w1'], (m2 w2) as [[a2|e2] w2']; simpl in *;
    try discriminate; inv Hr.
  - now apply Hf.
  - now split.
Qed.

Lemma same_but_calls_for_each {S A : Type} (body1 body2 : S -> A -> io S) (l : list A) :
  (forall s a, same_but_calls (body1 s a) (body2 s a)) ->
  forall s, same_but_calls (io_for_each body1 l s) (io_for_each body2 l s).
Proof.
  intros Hb. induction l as [|a l IH]; simpl; intros s.
  - intros w1 w2 Hc. now split.
  - apply same_but_calls_bind; [apply Hb|exact IH].
Qed.

Lemma same_but_calls_alloc (l : list value) : same_but_calls (alloc l) (alloc l).
Proof.
  intros w1 w2 Hc. unfold alloc. simpl. now rewrite Hc.
Qed.

Lemma same_but_calls_deref (a : nat) : same_but_calls (deref a) (deref a).
Proof.
  intros w1 w2 Hc. unfold deref. simpl. now rewrite Hc.
Qed.

Section DefaultRender.
Variable builtin_callables : string -> option (value -> result value).
Variable client : namespace.
Variable models : namespace.
Variable repr : value -> string.
Variable yaml_load_all : string -> list (result value).
Variable isdir : string -> bool.
Variable listdir : string -> list string.
Variable read_text : string -> result string.

Abbreviation load_file :=
  (load_file builtin_callables client models repr yaml_load_all read_text).
Abbreviation load_path :=
  (load_path builtin_callables client models repr yaml_load_all isdir listdir read_text).

Lemma load_file_default_render (path : string) (renderer : Renderer) :
  render_callable renderer = default_render ->
  same_but_calls (load_file path (Some renderer)) (load_file path None).
Proof.
  intros Hr w1 w2 Hc.
  unfold_head load_file. unfold io_bind, io_lift, io_ret, render. rewrite Hr.
  destruct (read_text path); simpl; now split.
Qed.

(** X22. With a renderer whose callable is [default_render], [load_file]
    and [load_path] return what they return without a renderer, whatever the
    renderer's context holds. *)
Theorem default_render_is_transparent (file dir : string) (renderer : Renderer) (w : world) :
  render_callable renderer = default_render ->
  fst (load_file file (Some renderer) w) = fst (load_file file None w)
  /\ fst (load_path dir (Some renderer) w) = fst (load_path dir None w).
Proof.
  intros Hr. split.
  - now apply (load_file_default_render file renderer Hr w w).
  - unfold_head load_path. destruct (isdir dir); [|reflexivity].
    cbn [negb option_map].
    refine (proj1 (same_but_calls_bind _ _ _ _ (same_but_calls_alloc []) _ w w eq_refl)).
    intros objs.
    apply same_but_calls_bind; [|intros a; apply same_but_calls_deref].
    apply same_but_calls_for_each. intros s f.
    destruct (is_manifest_name f); [|intros w1 w2 Hc; now split].
    apply same_but_calls_bind; [now apply load_file_default_render|].
    intros loaded. apply same_but_calls_bind; [apply same_but_calls_deref|].
    intros old. apply same_but_calls_alloc.
Qed.
End DefaultRender.

Lemma default_render_is_transparent_witness :
  fst (load_file sample_callables sample_models sample_models sample_repr
         sample_yaml_load_all sample_read_text "manifests/a.yaml"
         (Some sample_renderer) empty_world)
  = fst (load_file sample_callables sample_models sample_models sample_repr
           sample_yaml_load_all sample_read_text "manifests/a.yaml" None empty_world)
  /\ fst (load_path sample_callables sample_models sample_models sample_repr
            sample_yaml_load_all sample_isdir sample_listdir sample_read_text
            "manifests" (Some sample_renderer) empty_world)
     = fst (load_path sample_callables sample_models sample_models sample_repr
              sample_yaml_load_all sample_isdir sample_listdir sample_read_text
              "manifests" None empty_world).
Proof.
  apply (default_render_is_transparent sample_callables sample_models sample_models
           sample_repr sample_yaml_load_all sample_isdir sample_listdir sample_read_text
           "manifests/a.yaml" "manifests" sample_renderer empty_world).
  reflexivity.
Defined.

(** ** Witnesses for the loaders *)

Lemma load_file_one_object_per_document_witness :
  empty_world = empty_world
  /\ Forall2 (loaded_from sample_callables sample_models sample_models)
       (sample_yaml_load_all (pod_text "a")) [built_pod "a"].
Proof.
  apply (load_file_one_object_per_document sample_callables sample_models sample_models
           sample_repr sample_yaml_load_all sample_read_text
           "manifests/a.yaml" (pod_text "a") empty_world empty_world [built_pod "a"]).
  - reflexivity.
  - reflexivity.
Defined.

Lemma load_file_unknown_type_witness :
  load_file sample_callables sample_models sample_models sample_repr
    (fun _ => [Ok (pod_manifest "a"); Ok job_manifest; Ok (pod_manifest "b")])
    (fun _ => Ok "three documents") "jobs.yaml" None empty_world
  = (Raise (ValueError
              ("Unable to determine object type for manifest: " ++ sample_repr job_manifest)),
     empty_world).
Proof.
  apply (load_file_unknown_type sample_callables sample_models sample_models sample_repr
           (fun _ => [Ok (pod_manifest "a"); Ok job_manifest; Ok (pod_manifest "b")])
           (fun _ => Ok "three documents") "jobs.yaml" "three documents"
           [Ok (pod_manifest "a")] [Ok (pod_manifest "b")] job_manifest [built_pod "a"]
           empty_world).
  - reflexivity.
  - reflexivity.
  - reflexivity.
  - reflexivity.
Defined.

Definition sample_loads (f : string) : list value :=
  if String.eqb f "a.yaml" then [built_pod "a"]
  else if String.eqb f "b.yml" then [built_pod "b"]
  else [].

Lemma load_path_concatenates_witness :
  fst (load_path sample_callables sample_models sample_models sample_repr
         sample_yaml_load_all sample_isdir sample_listdir sample_read_text
         "manifests" None empty_world)
  = Ok (concat (map sample_loads (filter is_manifest_name (sample_listdir "manifests")))).
Proof.
  refine (load_path_concatenates sample_callables sample_models sample_models sample_repr
            sample_yaml_load_all sample_isdir sample_read_text sample_listdir
            "manifests" sample_loads _ _ empty_world).
  - reflexivity.
  - intros f Hin Hf w. simpl in Hin.
    destruct Hin as [<-|[<-|[<-|[]]]]; try reflexivity.
    vm_compute in Hf. discriminate.
Defined.

Lemma load_path_fails_with_first_failure_witness :
  fst (load_path sample_callables sample_models sample_models sample_repr
         sample_yaml_load_all sample_isdir (fun _ => ["a.yaml"; "missing.yaml"; "b.yml"])
         sample_read_text "manifests" None empty_world)
  = Raise (OSError "No such file or directory").
Proof.
  refine (load_path_fails_with_first_failure sample_callables sample_models sample_models
            sample_repr sample_yaml_load_all sample_isdir sample_read_text
            (fun _ => ["a.yaml"; "missing.yaml"; "b.yml"]) "manifests" "missing.yaml"
            ["a.yaml"] ["b.yml"] sample_loads (OSError "No such file or directory")
            _ _ _ _ _ empty_world).
  - reflexivity.
  - reflexivity.
  - intros f' Hin Hf w. simpl in Hin. destruct Hin as [<-|[]]. reflexivity.
  - reflexivity.
  - intros w. reflexivity.
Defined.

(** * What ends a build, and how deep it goes *)

Lemma map_result_raise_from {A B : Type} (f : A -> result B) (l : list A) (e : exn) :
  map_result f l = Raise e -> exists x, In x l /\ f x = Raise e.
Proof.
  induction l as [|x l IH]; simpl; [discriminate|].
  destruct (f x) as [y|e'] eqn:Hx; simpl.
  - destruct (map_result f l) as [ys|e']; simpl; [discriminate|].
    intros H. inv H. destruct (IH eq_refl) as [x' [Hin Hx']]. exists x'. auto.
  - intros H. inv H. exists x. auto.
Qed.

Lemma dict_comp_raise_from (fk fv : value -> result value) (items acc : list (value * value))
    (e : exn) :
  dict_comp fk fv items acc = Raise e ->
  e = TypeError "unhashable type"
  \/ exists k v, In (k, v) items /\ (fk k = Raise e \/ fv v = Raise e).
Proof.
  revert acc. induction items as [|[k v] items IH]; simpl; intros acc; [discriminate|].
  destruct (fk k) as [ck|e'] eqn:Hk; simpl.
  - destruct (fv v) as [cv|e'] eqn:Hv; simpl.
    + unfold dict_setitem. destruct (hashable ck); simpl.
      * intros H. destruct (IH _ H) as [He|[k' [v' [Hin Hr]]]]; [now left|].
        right. exists k', v'. auto.
      * intros H. inv H. now left.
    + intros H. inv H. right. exists k, v. auto.
  - intros H. inv H. right. exists k, v. auto.
Qed.

Lemma for_each_raise_from {S A : Type} (body : S -> A -> result S) (l : list A) (s : S)
    (e : exn) :
  for_each body l s = Raise e -> exists a s', In a l /\ body s' a = Raise e.
Proof.
  revert s. induction l as [|a l IH]; simpl; intros s; [discriminate|].
  destruct (body s a) as [s1|e'] eqn:Hb; simpl.
  - intros H. destruct (IH _ H) as [a' [s' [Hin Hb']]]. exists a', s'. auto.
  - intros H. inv H. exists a, s. auto.
Qed.

Section Depth.
Variable builtin_callables : string -> option (value -> result value).
Variable client : namespace.

Abbreviation new_object_fuel := (new_object_fuel builtin_callables client).
Abbreviation cast_value_body := (cast_value_body builtin_callables client).

(** X23. [new_object] calls itself no deeper than the mapping is nested,
    however the classes refer to one another: with room on the stack for
    the nesting of the mapping, a RecursionError can only come out of a
    builtin or a constructor, never out of [new_object] itself. *)
Theorem new_object_depth_bounded (n : nat) (root_type : pytype) (config : value) :
  height config < n ->
  (forall t f x, builtin_callables t = Some f -> f x <> Raise RecursionError) ->
  (forall args, init root_type args <> Raise RecursionError) ->
  (forall t k_type args, ns_get client t = Some k_type ->
                         init k_type args <> Raise RecursionError) ->
  new_object_fuel n root_type config <> Raise RecursionError.
Proof.
  intros Hlt Hbuiltin Hinit Hclient. revert root_type config Hlt Hinit.
  induction n as [|n IH]; intros root_type config Hlt Hinit; [lia|].
  assert (Hcast : forall x t, height x < height config ->
                              cast_value_body (new_object_fuel n) x t <> Raise RecursionError).
  { intros x t Hx. unfold_head cast_value_body. unfold builtins_get.
    destruct (String.eqb t "object"); [discriminate|].
    destruct (builtin_callables t) as [f|] eqn:Hf; simpl; [now apply (Hbuiltin t)|].
    destruct (ns_get client t) as [k_type|] eqn:Hk; [|discriminate].
    apply IH; [lia|]. intros args. now apply (Hclient t). }
  simpl. unfold new_object_body, constructor_args_of, attribute_items.
  destruct (attribute_map root_type) as [amap|]; simpl; [|discriminate].
  match goal with
  | |- context [for_each ?b amap ?s] =>
      destruct (for_each b amap s) as [args|e] eqn:Hloop; simpl; [apply Hinit|]
  end.
  intros He. inv He.
  destruct (for_each_raise_from _ _ _ _ Hloop) as [[k v] [s' [_ Hstep]]].
  unfold set_field in Hstep.
  destruct (py_get config (VStr v)) as [cfg_value|e] eqn:Hget; simpl in Hstep.
  2:{ destruct config as [| | | | |d|]; simpl in Hget; try (inv Hget; discriminate).
      destruct (dict_lookup d (VStr v)); discriminate. }
  destruct (is_none cfg_value) eqn:Hnone; [discriminate|].
  pose proof (py_get_height _ _ _ Hget Hnone) as Hh.
  destruct (field_type root_type k) as [t|e] eqn:Hty; simpl in Hstep.
  2:{ unfold field_type, getitem in Hty.
      destruct (swagger_types root_type) as [tys|].
      - destruct (str_get tys k); inv Hty. discriminate.
      - destruct (openapi_types root_type) as [tys|]; [|inv Hty; discriminate].
        destruct (str_get tys k); inv Hty. discriminate. }
  match type of Hstep with
  | context [field_value ?c cfg_value t] =>
      destruct (field_value c cfg_value t) as [y|e] eqn:Hfv; simpl in Hstep; [discriminate|]
  end.
  inv Hstep. unfold field_value in Hfv.
  destruct (list_match t) as [element_type|].
  - destruct (py_iter cfg_value) as [items|e] eqn:Hit; simpl in Hfv.
    + match type of Hfv with
      | context [map_result ?f items] =>
          destruct (map_result f items) as [ys|e] eqn:Hmap; simpl in Hfv; [discriminate|]
      end.
      inv Hfv. destruct (map_result_raise_from _ _ _ Hmap) as [x [Hin Hx]].
      pose proof (py_iter_height _ _ _ Hit Hin).
      apply (Hcast x element_type); [lia|exact Hx].
    + inv Hfv. destruct cfg_value; simpl in Hit; discriminate.
  - destruct (dict_match t) as [[key_type val_type]|].
    + destruct (py_items cfg_value) as [items|e] eqn:Hit; simpl in Hfv.
      * match type of Hfv with
        | context [dict_comp ?fk ?fv items ?acc] =>
            destruct (dict_comp fk fv items acc) as [d|e] eqn:Hcomp; simpl in Hfv;
            [discriminate|]
        end.
        inv Hfv.
        destruct (dict_comp_raise_from _ _ _ _ _ Hcomp) as [He|[k' [v' [Hin Hr]]]];
          [discriminate|].
        destruct (py_items_height _ _ _ _ Hit Hin) as [Hk' Hv'].
        destruct Hr as [Hr|Hr].
        -- apply (Hcast k' key_type); [lia|exact Hr].
        -- apply (Hcast v' val_type); [lia|exact Hr].
      * inv Hfv. destruct cfg_value; simpl in Hit; discriminate.
    + now apply (Hcast cfg_value t).
Qed.
End Depth.

Lemma sample_callables_quiet (t : string) (f : value -> result value) (x : value) :
  sample_callables t = Some f -> f x <> Raise RecursionError.
Proof.
  unfold sample_callables.
  destruct (String.eqb t "str"); [intros H; inv H; destruct x as [| [] | | | | |]; discriminate|].
  destruct (String.eqb t "int"); [intros H; inv H; destruct x; discriminate|].
  discriminate.
Defined.

Lemma sample_models_quiet (t : string) (k_type : pytype) (args : kwargs) :
  ns_get sample_models t = Some k_type -> init k_type args <> Raise RecursionError.
Proof.
  unfold ns_get, sample_models. cbn [str_get]. intros H.
  repeat match type of H with
         | context [String.eqb ?a t] =>
             destruct (String.eqb a t); [try discriminate; inv H; simpl; discriminate|]
         end.
  discriminate.
Defined.

Lemma new_object_depth_bounded_witness :
  new_object_fuel sample_callables sample_models 3 V1Pod (pod_manifest "x")
  <> Raise RecursionError.
Proof.
  apply (new_object_depth_bounded sample_callables sample_models 3 V1Pod (pod_manifest "x")).
  - simpl. lia.
  - exact sample_callables_quiet.
  - discriminate.
  - exact sample_models_quiet.
Defined.

(** X24. A version with no separator, or with more than one, has a single
    candidate, the version without its separators followed by the kind: when
    no name of the registry is that candidate up to case the result is None,
    even if the registry knows the kind under the last part of the version. *)
Theorem get_type_single_candidate
    (models : namespace) (manifest : value) (version kind : string) :
  py_get manifest (VStr "apiVersion") = Ok (VStr version) ->
  py_get manifest (VStr "kind") = Ok (VStr kind) ->
  count_char "/" version <> 1 ->
  (forall n, In n (map fst models) ->
             lower n <> lower (replace_char "." "" (replace_char "/" "" version) ++ kind)) ->
  get_type models manifest = Ok None.
Proof.
  intros Hv Hk Hcount Hno.
  rewrite (get_type_strings _ _ _ _ Hv Hk).
  unfold possibilities. simpl.
  destruct (Nat.eqb_spec (count_char "/" version) 1) as [|_]; [contradiction|].
  simpl.
  destruct (str_get (lookup models)
              (lower (replace_char "." "" (replace_char "/" "" version) ++ kind)))
    as [n|] eqn:Hn; [|reflexivity].
  destruct (lookup_sound models _ _ Hn) as [Hin Hl].
  exfalso. exact (Hno n Hin Hl).
Qed.

Lemma get_type_single_candidate_witness :
  get_type sample_models
    (VDict [(VStr "apiVersion", VStr "example.com/apps/v1"); (VStr "kind", VStr "Pod")])
  = Ok None.
Proof.
  apply (get_type_single_candidate sample_models
           (VDict [(VStr "apiVersion", VStr "example.com/apps/v1"); (VStr "kind", VStr "Pod")])
           "example.com/apps/v1" "Pod").
  - reflexivity.
  - reflexivity.
  - vm_compute. discriminate.
  - intros n Hn. simpl in Hn.
    repeat (destruct Hn as [<-|Hn]; [vm_compute; discriminate|]). destruct Hn.
Defined.

Section RenderCalls.
Variable builtin_callables : string -> option (value -> result value).
Variable client : namespace.
Variable models : namespace.
Variable repr : value -> string.
Variable yaml_load_all : string -> list (result value).
Variable isdir : string -> bool.
Variable listdir : string -> list string.
Variable read_text : string -> result string.

Abbreviation load_file :=
  (load_file builtin_callables client models repr yaml_load_all read_text).
Abbreviation load_path :=
  (load_path builtin_callables client models repr yaml_load_all isdir listdir read_text).

(** The render call made for a file: its template is the text of the file
    and its context binds [path] to the path of the file. *)
Definition rendered_from (path : string) (c : render_call) : Prop :=
  read_text path = Ok (call_template c)
  /\ str_get (call_context c) "path" = Some (VStr path).

Lemma load_file_renders_once (path : string) (renderer : Renderer) (w w' : world)
    (objs : list value) :
  load_file path (Some renderer) w = (Ok objs, w') ->
  cells w' = cells w
  /\ exists c, calls w' = calls w ++ [c] /\ rendered_from path c.
Proof.
  unfold_head load_file. unfold io_bind, io_lift, render.
  destruct (read_text path) as [f|e] eqn:Hf; simpl; [|discriminate].
  match goal with
  | |- context [render_callable renderer f ?c] => destruct (render_callable renderer f c)
  end; simpl; intros H; inv H; simpl.
  split; [reflexivity|]. eexists. split; [reflexivity|].
  split; simpl; [exact Hf|].
  rewrite read_context_get. now rewrite str_get_set_same.
Qed.

Lemma load_path_loop_renders (path : string) (renderer : Renderer) (fs : list string) :
  forall (objs objs' : nat) (w w' : world),
    io_for_each
      (fun objs f =>
         if is_manifest_name f then
           loaded <<- load_file (path_join path f) (Some renderer) ;;
           old <<- deref objs ;;
           alloc (old ++ loaded)
         else io_ret objs)
      fs objs w = (Ok objs', w') ->
    exists new,
      calls w' = calls w ++ new
      /\ Forall2 (fun f c => rendered_from (path_join path f) c)
           (filter is_manifest_name fs) new.
Proof.
  induction fs as [|f fs IH]; simpl; intros objs objs' w w' H.
  - inv H. exists []. split; [now rewrite app_nil_r|constructor].
  - apply io_bind_inv in H.
    destruct H as [[objs1 [w1 [Hturn H]]]|[e [_ He]]]; [|discriminate].
    destruct (IH _ _ _ _ H) as [new [Hcalls Hnew]].
    destruct (is_manifest_name f).
    + apply io_bind_inv in Hturn.
      destruct Hturn as [[loaded [w2 [Hlf Hturn]]]|[e [_ He]]]; [|discriminate].
      destruct (load_file_renders_once _ _ _ _ _ Hlf) as [_ [c [Hc Hr]]].
      unfold io_bind, deref, alloc in Hturn. simpl in Hturn. inv Hturn. simpl in Hcalls.
      exists (c :: new). split.
      * rewrite Hcalls, Hc, <- app_assoc. reflexivity.
      * now constructor.
    + inv Hturn. exists new. now split.
Qed.

(** X25. When [load_path] with a renderer returns, the render callable has
    been called once for each manifest file of the directory, in the order
    of the listing, with the text of the file as template and the path of
    the file as [path]; the other files were not rendered. *)
Theorem load_path_renders_each_file_once
    (path : string) (renderer : Renderer) (w w' : world) (objs : list value) :
  load_path path (Some renderer) w = (Ok objs, w') ->
  exists new,
    calls w' = calls w ++ new
    /\ Forall2 (fun f c => rendered_from (path_join path f) c)
         (filter is_manifest_name (listdir path)) new.
Proof.
  unfold_head load_path.
  destruct (isdir path); simpl; [|discriminate].
  intros H. apply io_bind_inv in H.
  destruct H as [[a [w1 [Ha H]]]|[e [_ He]]]; [|discriminate].
  unfold alloc in Ha. inv Ha.
  apply io_bind_inv in H.
  destruct H as [[objs' [w2 [Hloop H]]]|[e [_ He]]]; [|discriminate].
  unfold deref in H. inv H.
  exact (load_path_loop_renders _ _ _ _ _ _ _ Hloop).
Qed.
End RenderCalls.

Lemma load_path_renders_each_file_once_witness :
  exists new,
    calls (snd (load_path sample_callables sample_models sample_models sample_repr
                  sample_yaml_load_all sample_isdir sample_listdir sample_read_text
                  "manifests" (Some sample_renderer) empty_world))
    = calls empty_world ++ new
    /\ Forall2 (fun f c => rendered_from sample_read_text (path_join "manifests" f) c)
         (filter is_manifest_name (sample_listdir "manifests")) new.
Proof.
  apply (load_path_renders_each_file_once sample_callables sample_models sample_models
           sample_repr sample_yaml_load_all sample_isdir sample_listdir sample_read_text
           "manifests" sample_renderer empty_world _ [built_pod "a"; built_pod "b"]).
  reflexivity.
Defined.
